(** * The Santa Claus problem (pgoodman/uwo-santa-clause), embedded in Rocq

    The repository solves the Santa Claus problem of "The Little Book of
    Semaphores" with one Santa thread, nine elf threads and ten reindeer
    threads that synchronise through semaphores only.

    Two versions of [main.c] are embedded here:
    - [SleepGate]: the version with [santa_sleep_mutex], the service counter
      [num_elves_being_helped] and the header comment arguing
      deadlock-freedom;
    - [Trunk]: [trunk/main.c], an earlier draft in which Santa polls, with
      [christmas_mutex] and [id_counter_mutex].

    Every thread body is written in a small monad of atomic actions ([Prog]):
    one action per semaphore operation, per access to a shared variable and
    per call into the waiting set.  A body can be run to completion on a
    shared state ([run]) or interleaved with others under a schedule
    ([run_schedule]). *)

From Stdlib Require Import ZArith List String Bool Lia.
From Equations Require Import Equations.
Import ListNotations.

Local Open Scope string_scope.
Local Open Scope list_scope.
Local Open Scope Z_scope.

Set Implicit Arguments.

(** ** Constants of [main.c] *)

(** [NUM_REINDEER], [NUM_ELVES] and [NUM_ELVES_PER_GROUP] are macros: a run
    has no other configuration.  They are gathered in a class so that the
    code can be read with the values of the source ([source_config]) or with
    the values another build would give them. *)
Class Config : Type := {
  NUM_REINDEER : Z;
  NUM_ELVES : Z;
  NUM_ELVES_PER_GROUP : Z
}.

#[export] Instance source_config : Config := {|
  NUM_REINDEER := 10;
  NUM_ELVES := 9;
  NUM_ELVES_PER_GROUP := 3
|}.

Definition INT_MAX : Z := 2 ^ 31 - 1.
Definition MAX_WAIT_TIME : Z := Z.shiftr INT_MAX 4.
Definition EXIT_SUCCESS : Z := 0.
Definition EXIT_FAILURE : Z := 1.

Definition MAX (a b : Z) : Z := if a >? b then a else b.

(** ** Machine integers *)

(** [unsigned int] is 32 bits wide: arithmetic is modulo [2 ^ 32]. *)
Definition uint (z : Z) : Z := z mod 2 ^ 32.

(** [int] is 32 bits wide, two's complement. *)
Definition int (z : Z) : Z := (z + 2 ^ 31) mod 2 ^ 32 - 2 ^ 31.

Arguments uint : simpl never.
Arguments int : simpl never.

(** ** The delay loop of [random_wait]

    [for(; --i; ) ;] on an [unsigned int i]: the condition decrements [i]
    modulo [2 ^ 32] and the empty body runs as long as the result is not
    zero.  [busy_wait_iterations i] is the number of times the body runs
    when the loop is entered with [i]. *)
Equations? busy_wait_iterations (i : Z) : Z
  by wf (Z.to_nat (uint (i - 1))) lt :=
  busy_wait_iterations i with Z.eq_dec (uint (i - 1)) 0 := {
    | left _ => 0
    | right _ => 1 + busy_wait_iterations (uint (i - 1)) }.
Proof.
  unfold uint in *.
  assert (0 <= (i - 1) mod 2 ^ 32 < 2 ^ 32) by (apply Z.mod_pos_bound; lia).
  rewrite (Z.mod_small ((i - 1) mod 2 ^ 32 - 1)) by lia.
  lia.
Qed.

(** ** Shared objects *)

(** The two semaphore sets of [main.c]. *)
Inductive SemSet : Type := sem_set | elf_line_set.

(** The semaphores.  The named ones are the [sem_t] globals that
    [sem_unpack_set] takes out of [sem_set]; [slot elf_line_set id] is the
    semaphore that [sem_wait_index(&elf_line_set, id)] and
    [sem_signal_index(&elf_line_set, id, 1)] address.  [id_counter_mutex] and
    [christmas_mutex] exist in [trunk/main.c] only, [santa_sleep_mutex] in
    the other version only. *)
Inductive Gate : Type :=
| santa_busy_mutex
| santa_sleep_mutex
| reindeer_counting_sem
| reindeer_counter_lock
| elf_counting_sem
| elf_mutex
| elf_counter_lock
| id_counter_mutex
| christmas_mutex
| slot (s : SemSet) (i : Z).

(** The thread entry points handed to [pthread_create]. *)
Inductive ThreadFn : Type := fn_santa | fn_elf | fn_reindeer.

(** The shared integer variables: the two file-level counters and the
    function-level [static int]s. *)
Inductive Var : Type :=
| num_reindeer_waiting
| num_elves_being_helped
| num_launched
| resources_freed
| atomic_counter (f : ThreadFn).

Inductive Stream : Type := stdout | stderr.

(** What teardown releases. *)
Inductive Resource : Type := semaphores (s : SemSet) | waiting_set.

Definition SemSet_eq_dec (a b : SemSet) : {a = b} + {a <> b}.
Proof. decide equality. Defined.

Definition Gate_eq_dec (a b : Gate) : {a = b} + {a <> b}.
Proof. decide equality; [apply Z.eq_dec | apply SemSet_eq_dec]. Defined.

Definition ThreadFn_eq_dec (a b : ThreadFn) : {a = b} + {a <> b}.
Proof. decide equality. Defined.

Definition Var_eq_dec (a b : Var) : {a = b} + {a <> b}.
Proof. decide equality; apply ThreadFn_eq_dec. Defined.

(** ** Atomic actions *)

(** One constructor per primitive the threads call.  Every action answers
    with an integer; actions whose C counterpart returns [void] answer 0. *)
Inductive Event : Type :=
| SemWait (g : Gate)
| SemSignal (g : Gate)
| SemInit (g : Gate) (v : Z)
| SemInitAll (s : SemSet) (v : Z)
| SemFillSet (s : SemSet) (n : Z)
| SemUnpackSet (s : SemSet) (gs : list Gate)
| SemEmptySet (s : SemSet)
| SetAlloc (num_slots : Z)
| SetFree
| SetExitFree
| SetInsert (item : Z)
| SetTake
| SetCardinality
| Load (x : Var)
| Store (x : Var) (v : Z)
| Fprintf (f : Stream) (fmt : string) (arg : option Z)
| Rand
| Srand
| BusyWait (i : Z)
| Atexit
| AtexitHandlers
| SignalSigint
| PthreadCreate (fn : ThreadFn) (arg : Z)
| PthreadJoin (i : Z)
| Halt (code : Z).

(** ** Shared state *)

Record Shared : Type := mkShared {
  sem : Gate -> Z;                  (* value of each semaphore *)
  var : Var -> Z;                   (* value of each shared variable *)
  elves_waiting : list Z;           (* members of the waiting set *)
  console : list (Stream * string * option Z);   (* what was printed *)
  rand_source : nat -> Z;           (* the results rand() gives, in order *)
  rand_calls : nat;                 (* how many were consumed *)
  atexit_ok : bool;                 (* whether atexit() succeeds *)
  atexit_registered : bool;
  sigint_installed : bool;
  acquired : list Resource;         (* allocations, in order *)
  released : list Resource;         (* frees, in order *)
  created : list (ThreadFn * Z);    (* pthread_create calls, in order *)
  terminated : list Z;              (* threads that returned *)
  exit_status : option Z            (* set once exit() has run *)
}.

Definition set_sem (s : Shared) (f : Gate -> Z) : Shared :=
  mkShared f (var s) (elves_waiting s) (console s) (rand_source s)
    (rand_calls s) (atexit_ok s) (atexit_registered s) (sigint_installed s)
    (acquired s) (released s) (created s) (terminated s) (exit_status s).

Definition set_var (s : Shared) (f : Var -> Z) : Shared :=
  mkShared (sem s) f (elves_waiting s) (console s) (rand_source s)
    (rand_calls s) (atexit_ok s) (atexit_registered s) (sigint_installed s)
    (acquired s) (released s) (created s) (terminated s) (exit_status s).

Definition set_elves_waiting (s : Shared) (l : list Z) : Shared :=
  mkShared (sem s) (var s) l (console s) (rand_source s)
    (rand_calls s) (atexit_ok s) (atexit_registered s) (sigint_installed s)
    (acquired s) (released s) (created s) (terminated s) (exit_status s).

Definition set_console (s : Shared) (l : list (Stream * string * option Z))
  : Shared :=
  mkShared (sem s) (var s) (elves_waiting s) l (rand_source s)
    (rand_calls s) (atexit_ok s) (atexit_registered s) (sigint_installed s)
    (acquired s) (released s) (created s) (terminated s) (exit_status s).

Definition set_rand_calls (s : Shared) (n : nat) : Shared :=
  mkShared (sem s) (var s) (elves_waiting s) (console s) (rand_source s)
    n (atexit_ok s) (atexit_registered s) (sigint_installed s)
    (acquired s) (released s) (created s) (terminated s) (exit_status s).

Definition set_atexit_registered (s : Shared) (b : bool) : Shared :=
  mkShared (sem s) (var s) (elves_waiting s) (console s) (rand_source s)
    (rand_calls s) (atexit_ok s) b (sigint_installed s)
    (acquired s) (released s) (created s) (terminated s) (exit_status s).

Definition set_sigint_installed (s : Shared) (b : bool) : Shared :=
  mkShared (sem s) (var s) (elves_waiting s) (console s) (rand_source s)
    (rand_calls s) (atexit_ok s) (atexit_registered s) b
    (acquired s) (released s) (created s) (terminated s) (exit_status s).

Definition set_acquired (s : Shared) (l : list Resource) : Shared :=
  mkShared (sem s) (var s) (elves_waiting s) (console s) (rand_source s)
    (rand_calls s) (atexit_ok s) (atexit_registered s) (sigint_installed s)
    l (released s) (created s) (terminated s) (exit_status s).

Definition set_released (s : Shared) (l : list Resource) : Shared :=
  mkShared (sem s) (var s) (elves_waiting s) (console s) (rand_source s)
    (rand_calls s) (atexit_ok s) (atexit_registered s) (sigint_installed s)
    (acquired s) l (created s) (terminated s) (exit_status s).

Definition set_created (s : Shared) (l : list (ThreadFn * Z)) : Shared :=
  mkShared (sem s) (var s) (elves_waiting s) (console s) (rand_source s)
    (rand_calls s) (atexit_ok s) (atexit_registered s) (sigint_installed s)
    (acquired s) (released s) l (terminated s) (exit_status s).

Definition set_terminated (s : Shared) (l : list Z) : Shared :=
  mkShared (sem s) (var s) (elves_waiting s) (console s) (rand_source s)
    (rand_calls s) (atexit_ok s) (atexit_registered s) (sigint_installed s)
    (acquired s) (released s) (created s) l (exit_status s).

Definition set_exit_status (s : Shared) (c : option Z) : Shared :=
  mkShared (sem s) (var s) (elves_waiting s) (console s) (rand_source s)
    (rand_calls s) (atexit_ok s) (atexit_registered s) (sigint_installed s)
    (acquired s) (released s) (created s) (terminated s) c.

(** Pointwise update of the semaphore and variable stores. *)
Definition upd_gate (f : Gate -> Z) (g : Gate) (v : Z) : Gate -> Z :=
  fun h => if Gate_eq_dec h g then v else f h.

Definition upd_var (f : Var -> Z) (x : Var) (v : Z) : Var -> Z :=
  fun y => if Var_eq_dec y x then v else f y.

(** The state of a process before [main] runs: every semaphore and variable
    is zero, the set is empty, nothing was printed.  The two parameters are
    the environment: the sequence of [rand()] results and whether [atexit]
    will succeed. *)
Definition fresh (draws : nat -> Z) (atexit_succeeds : bool) : Shared :=
  mkShared (fun _ => 0) (fun _ => 0) [] [] draws 0%nat atexit_succeeds
    false false [] [] [] [] None.

(** ** The semantics of the primitives *)

(** What the environment answers to an action: the action returns with a new
    state and a value, the caller blocks, or the action was called outside
    the contract of code that this development has no source for. *)
Inductive Reply : Type :=
| Returns (s : Shared) (r : Z)
| Blocks
| Unspecified.

(** Modelled from the spec: [sem.h], [sem.c] and [set.c] are not among the
    sources, so the semaphore operations ([sem_wait], [sem_signal],
    [sem_signal_ntimes], [sem_signal_index], [sem_wait_index], [sem_init],
    [sem_init_all], [sem_fill_set], [sem_unpack_set], [sem_empty_set]) and
    the set operations ([set_alloc], [set_insert], [set_take],
    [set_cardinality], [set_free], [set_exit_free]) follow the spec.
    A semaphore is a counting signal: waiting blocks while no credit is
    available and otherwise takes one; signalling adds credits and never
    blocks.  The waiting set holds identifiers; inserting adds one member,
    taking removes and returns one member and is outside its contract on an
    empty set, and the cardinality is the number of members.  Members are
    kept in arrival order and taken in that order, one of the orders the
    spec allows.  The remaining cases are the C library calls of [main.c]. *)
Definition perform (e : Event) (s : Shared) : Reply :=
  match e with
  | SemWait g =>
      if 0 <? sem s g
      then Returns (set_sem s (upd_gate (sem s) g (sem s g - 1))) 0
      else Blocks
  | SemSignal g =>
      Returns (set_sem s (upd_gate (sem s) g (sem s g + 1))) 0
  | SemInit g v =>
      Returns (set_sem s (upd_gate (sem s) g v)) 0
  | SemInitAll t v =>
      Returns (set_sem s (fun h =>
                 match h with
                 | slot t' _ => if SemSet_eq_dec t' t then v else sem s h
                 | _ => sem s h
                 end)) 0
  | SemFillSet t _ =>
      Returns (set_acquired s (acquired s ++ [semaphores t])) 0
  | SemUnpackSet _ _ => Returns s 0
  | SemEmptySet t =>
      Returns (set_released s (released s ++ [semaphores t])) 0
  | SetAlloc _ =>
      Returns (set_acquired s (acquired s ++ [waiting_set])) 0
  | SetFree | SetExitFree =>
      Returns (set_released s (released s ++ [waiting_set])) 0
  | SetInsert item =>
      Returns (set_elves_waiting s (elves_waiting s ++ [item])) 0
  | SetTake =>
      match elves_waiting s with
      | [] => Unspecified
      | item :: rest => Returns (set_elves_waiting s rest) item
      end
  | SetCardinality =>
      Returns s (Z.of_nat (List.length (elves_waiting s)))
  | Load x => Returns s (var s x)
  | Store x v => Returns (set_var s (upd_var (var s) x v)) 0
  | Fprintf f fmt arg =>
      Returns (set_console s (console s ++ [(f, fmt, arg)])) 0
  | Rand =>
      Returns (set_rand_calls s (S (rand_calls s)))
              (rand_source s (rand_calls s))
  | Srand => Returns s 0
  | BusyWait _ => Returns s 0
  | Atexit =>
      if atexit_ok s
      then Returns (set_atexit_registered s true) 0
      else Returns s (-1)
  | AtexitHandlers =>
      Returns s (if atexit_registered s then 1 else 0)
  | SignalSigint => Returns (set_sigint_installed s true) 0
  | PthreadCreate fn arg =>
      Returns (set_created s (created s ++ [(fn, arg)])) 0
  | PthreadJoin i =>
      if existsb (Z.eqb i) (terminated s) then Returns s 0 else Blocks
  | Halt code => Returns (set_exit_status s (Some code)) 0
  end.

(** ** Programs *)

(** A program performs atomic actions one after the other; each continues
    with the answer of the previous one. *)
Inductive Prog (A : Type) : Type :=
| Ret (a : A)
| Act (e : Event) (k : Z -> Prog A).

Arguments Ret {A} a.
Arguments Act {A} e k.

Fixpoint bind {A B : Type} (p : Prog A) (f : A -> Prog B) : Prog B :=
  match p with
  | Ret a => f a
  | Act e k => Act e (fun r => bind (k r) f)
  end.

Declare Scope prog_scope.
Delimit Scope prog_scope with prog.
Bind Scope prog_scope with Prog.

Notation "x <- p ;; q" := (bind p (fun x => q))
  (at level 61, p at next level, right associativity) : prog_scope.
Notation "p ;; q" := (bind p (fun _ => q))
  (at level 61, right associativity) : prog_scope.

Local Open Scope prog_scope.

(** An action whose answer is used, and one whose answer is dropped. *)
Definition call (e : Event) : Prog Z := Act e (fun r => Ret r).
Definition do (e : Event) : Prog unit := Act e (fun _ => Ret tt).

(** [for(i = from; i < bound; ++i) body]. *)
Fixpoint for_loop (n : nat) (i : Z) (body : Z -> Prog unit) : Prog unit :=
  match n with
  | O => Ret tt
  | S n' => body i ;; for_loop n' (i + 1) body
  end.

Definition for_upto (from bound : Z) (body : Z -> Prog unit) : Prog unit :=
  for_loop (Z.to_nat (bound - from)) from body.

(** ** Running one program to the end *)

Inductive Status (A : Type) : Type :=
| Finished (a : A)          (* the program returned *)
| Blocked (e : Event)       (* it waits in e *)
| Exited                     (* the process has exited *)
| OutOfContract (e : Event).

Arguments Finished {A} a.
Arguments Blocked {A} e.
Arguments Exited {A}.
Arguments OutOfContract {A} e.

Record Outcome (A : Type) : Type := mkOutcome {
  final : Shared;
  trace : list (Event * Z);
  status : Status A
}.

(** [run p s] executes [p] from [s] without interference until it returns,
    blocks or the process exits.  The trace lists the actions performed with
    their answers, oldest first; [run_from] continues a trace. *)
Fixpoint run_from {A : Type} (p : Prog A) (s : Shared)
    (tr : list (Event * Z)) : Outcome A :=
  match p with
  | Ret a => mkOutcome s tr (Finished a)
  | Act e k =>
      match exit_status s with
      | Some _ => mkOutcome s tr Exited
      | None =>
          match perform e s with
          | Returns s' r => run_from (k r) s' (tr ++ [(e, r)])
          | Blocks => mkOutcome s tr (Blocked e)
          | Unspecified => mkOutcome s tr (OutOfContract e)
          end
      end
  end.

Definition run {A : Type} (p : Prog A) (s : Shared) : Outcome A :=
  run_from p s [].

(** ** Interleaving several programs *)

(** A thread is what is left of its current pass and, for a thread that
    loops forever, the loop body to start again from. *)
Record Thread : Type := mkThread {
  residual : Prog unit;
  loop_body : option (Prog unit)
}.

Record Machine : Type := mkMachine {
  shared : Shared;
  pool : list Thread         (* thread 0 is main *)
}.

Fixpoint replace_nth {A : Type} (n : nat) (x : A) (l : list A) : list A :=
  match n, l with
  | _, [] => []
  | O, _ :: t => x :: t
  | S n', h :: t => h :: replace_nth n' x t
  end.

Section Scheduling.

(** The code that [pthread_create] starts for an entry point. *)
Variable spawn : ThreadFn -> Z -> Thread.

(** One atomic step of thread [tid]; [None] when the thread cannot move:
    it is blocked, has returned, or the process has exited. *)
Definition step (tid : nat) (m : Machine) : option Machine :=
  match exit_status (shared m), nth_error (pool m) tid with
  | None, Some t =>
      match residual t with
      | Ret _ =>
          match loop_body t with
          | Some b => Some (mkMachine (shared m)
                              (replace_nth tid (mkThread b (Some b)) (pool m)))
          | None => None
          end
      | Act e k =>
          match perform e (shared m) with
          | Returns s' r =>
              let t' := mkThread (k r) (loop_body t) in
              let s'' :=
                match k r, loop_body t with
                | Ret _, None =>
                    set_terminated s' (terminated s' ++ [Z.of_nat tid - 1])
                | _, _ => s'
                end in
              let born :=
                match e with
                | PthreadCreate fn arg => [spawn fn arg]
                | _ => []
                end in
              Some (mkMachine s'' (replace_nth tid t' (pool m) ++ born))
          | _ => None
          end
      end
  | _, _ => None
  end.

(** A schedule names the thread that moves at each step.  The run fails
    when the schedule asks a thread to move that cannot. *)
Fixpoint run_schedule (sched : list nat) (m : Machine) : option Machine :=
  match sched with
  | [] => Some m
  | tid :: rest =>
      match step tid m with
      | Some m' => run_schedule rest m'
      | None => None
      end
  end.

(** Thread [tid] moves until it cannot, at most [fuel] times. *)
Fixpoint burst (fuel : nat) (tid : nat) (m : Machine) : Machine :=
  match fuel with
  | O => m
  | S fuel' =>
      match step tid m with
      | Some m' => burst fuel' tid m'
      | None => m
      end
  end.

(** The threads of [tids] move in turn, each until it cannot. *)
Definition bursts (fuel : nat) (tids : list nat) (m : Machine) : Machine :=
  fold_left (fun m' tid => burst fuel tid m') tids m.

End Scheduling.

(** ** The calls of [sem.h], [set.h] and the C library, as programs *)

Definition sem_wait (g : Gate) : Prog unit := do (SemWait g).
Definition sem_signal (g : Gate) : Prog unit := do (SemSignal g).

(** Modelled from the spec: [sem_signal_ntimes] is declared in the absent
    [sem.h]; the spec has the signal released N times, one credit each. *)
Definition sem_signal_ntimes (g : Gate) (n : Z) : Prog unit :=
  for_loop (Z.to_nat n) 0 (fun _ => sem_signal g).

Definition sem_wait_index (t : SemSet) (i : Z) : Prog unit :=
  sem_wait (slot t i).
Definition sem_signal_index (t : SemSet) (i : Z) (n : Z) : Prog unit :=
  sem_signal_ntimes (slot t i) n.
Definition sem_init (g : Gate) (v : Z) : Prog unit := do (SemInit g v).
Definition sem_init_all (t : SemSet) (v : Z) : Prog unit :=
  do (SemInitAll t v).
Definition sem_fill_set (t : SemSet) (n : Z) : Prog unit :=
  do (SemFillSet t n).
Definition sem_unpack_set (t : SemSet) (gs : list Gate) : Prog unit :=
  do (SemUnpackSet t gs).
Definition sem_empty_set (t : SemSet) : Prog unit := do (SemEmptySet t).

(** Modelled from the spec: the macro [CRITICAL] is defined in the absent
    [sem.h]; it runs its block between a wait and a signal on the given
    semaphore, the "short exclusion lock" of the spec. *)
Definition CRITICAL {A : Type} (g : Gate) (block : Prog A) : Prog A :=
  sem_wait g ;; r <- block ;; sem_signal g ;; Ret r.

Definition set_alloc (num_slots : Z) : Prog unit := do (SetAlloc num_slots).
Definition set_free : Prog unit := do SetFree.
Definition set_exit_free : Prog unit := do SetExitFree.
Definition set_insert (item : Z) : Prog unit := do (SetInsert item).
Definition set_take : Prog Z := call SetTake.
Definition set_cardinality : Prog Z := call SetCardinality.

Definition load (x : Var) : Prog Z := call (Load x).
Definition store (x : Var) (v : Z) : Prog unit := do (Store x v).

(** [++x] and [--x] on a shared [int]: a read followed by a write. *)
Definition incr (x : Var) : Prog unit :=
  v <- load x ;; store x (int (v + 1)).
Definition decr (x : Var) : Prog unit :=
  v <- load x ;; store x (int (v - 1)).

Definition fprintf (f : Stream) (fmt : string) (arg : option Z) : Prog unit :=
  do (Fprintf f fmt arg).

(** [exit(code)]: the handler registered with [atexit], if any, runs first;
    then the process is gone. *)
Definition exit_with (handler : Prog unit) (code : Z) : Prog unit :=
  registered <- call AtexitHandlers ;;
  (if registered =? 0 then Ret tt else handler) ;;
  do (Halt code).

(** The thread-local discipline of locks.  [held] is the list of guard locks
    the thread has waited for and not signalled since.  The program is
    disciplined when it never starts a wait while it holds a guard other
    than the semaphore it waits for, whatever the actions answer, and
    returns holding nothing. *)
Fixpoint never_blocks_holding {A : Type} (guard : Gate -> bool)
    (held : list Gate) (p : Prog A) : Prop :=
  match p with
  | Ret _ => held = []
  | Act e k =>
      match e with
      | SemWait g =>
          (forall h, In h held -> h = g) /\
          forall r, never_blocks_holding guard
                      (if guard g then g :: held else held) (k r)
      | SemSignal g =>
          forall r, never_blocks_holding guard
                      (remove Gate_eq_dec g held) (k r)
      | _ => forall r, never_blocks_holding guard held (k r)
      end
  end.

(** A program raises [trigger] only inside the section guarded by [lock]:
    [inside] tells whether the thread is between its wait and its signal on
    [lock]. *)
Fixpoint raises_only_under {A : Type} (lock trigger : Gate) (inside : bool)
    (p : Prog A) : Prop :=
  match p with
  | Ret _ => True
  | Act e k =>
      match e with
      | SemWait g =>
          forall r, raises_only_under lock trigger
                      (if Gate_eq_dec g lock then true else inside) (k r)
      | SemSignal g =>
          (if Gate_eq_dec g trigger then inside = true else True) /\
          forall r, raises_only_under lock trigger
                      (if Gate_eq_dec g lock then false else inside) (k r)
      | _ => forall r, raises_only_under lock trigger inside (k r)
      end
  end.

(** The four guards of the spec's shared-resource policy: the
    CoordinatorGate and the locks of TransportCounter, HelpCounter and
    WaitingSet. *)
Definition guard_lock (g : Gate) : bool :=
  match g with
  | santa_busy_mutex | reindeer_counter_lock | elf_counter_lock | elf_mutex =>
      true
  | _ => false
  end.

(** The three locks that guard data. *)
Definition data_guard (g : Gate) : bool :=
  match g with
  | reindeer_counter_lock | elf_counter_lock | elf_mutex => true
  | _ => false
  end.

(** Counting actions in a trace. *)
Definition is_signal_of (g : Gate) (x : Event * Z) : bool :=
  match fst x with
  | SemSignal h => if Gate_eq_dec h g then true else false
  | _ => false
  end.


Definition is_line_signal (x : Event * Z) : bool :=
  match fst x with
  | SemSignal (slot elf_line_set _) => true
  | _ => false
  end.

Definition is_take (x : Event * Z) : bool :=
  match fst x with SetTake => true | _ => false end.

Definition is_release (x : Event * Z) : bool :=
  match fst x with
  | SemEmptySet _ | SetFree | SetExitFree => true
  | _ => false
  end.

Definition is_output (x : Event * Z) : bool :=
  match fst x with Fprintf _ _ _ => true | _ => false end.



Definition count (f : Event * Z -> bool) (t : list (Event * Z)) : Z :=
  Z.of_nat (List.length (filter f t)).

(** ** The version with the sleep gate *)

Module SleepGate.
Section Code.

Context {cfg : Config}.

(** [random_wait]: draw, print, spin. *)
Definition random_wait (message : string) (format_var : Z) : Prog unit :=
  r <- call Rand ;;
  let i := uint (Z.rem r MAX_WAIT_TIME) in
  fprintf stdout message (Some format_var) ;;
  do (BusyWait i).

(** [free_resources], with its [static int resources_freed]. *)
Definition free_resources : Prog unit :=
  freed <- load resources_freed ;;
  if freed =? 0 then
    store resources_freed 1 ;;
    fprintf stdout "\n... And that year was a Merry Christmas indeed!\n\n"
      None ;;
    sem_empty_set sem_set ;;
    sem_empty_set elf_line_set ;;
    set_exit_free
  else Ret tt.

Definition exit (code : Z) : Prog unit := exit_with free_resources code.

(** The macro of [assert.h]: report on [stderr] and [exit(EXIT_FAILURE)]. *)
Definition assert (cond : bool) : Prog unit :=
  if cond then Ret tt
  else
    fprintf stderr "Assertion '%s' failed in file %s on line %d.\n" None ;;
    exit EXIT_FAILURE.

Definition sigint_handler : Prog unit := exit EXIT_SUCCESS.

(** *** Santa *)

Definition help_elves : Prog unit :=
  fprintf stdout "Santa: noticed that there are elves waiting! \n" None ;;
  sem_wait santa_busy_mutex ;;
  CRITICAL elf_counter_lock
    (store num_elves_being_helped NUM_ELVES_PER_GROUP) ;;
  CRITICAL elf_mutex
    (c <- set_cardinality ;;
     fprintf stdout "Santa: There are %d elves outside my door! \n"
       (Some c) ;;
     for_upto 0 NUM_ELVES_PER_GROUP (fun _ =>
       elf <- set_take ;;
       fprintf stdout "Santa: helping elf: %d. \n" (Some elf) ;;
       sem_signal_index elf_line_set elf 1)).

Definition prepare_sleigh : Prog unit :=
  sem_wait santa_busy_mutex ;;
  fprintf stdout "Santa: preparing the sleigh. \n" None ;;
  sem_signal_ntimes reindeer_counting_sem NUM_REINDEER.

(** The [if ... else if ...] that Santa runs once woken. *)
Definition santa_awake : Prog unit :=
  n <- load num_reindeer_waiting ;;
  if NUM_REINDEER <=? n then
    store num_reindeer_waiting NUM_REINDEER ;;
    prepare_sleigh ;;
    sem_wait santa_busy_mutex ;;
    sem_wait santa_sleep_mutex
  else
    c <- set_cardinality ;;
    if 3 <=? c then help_elves else Ret tt.

(** What precedes the [while(1)] of [santa]. *)
Definition santa_entry : Prog unit :=
  n <- load num_launched ;;
  store num_launched (int (n + 1)) ;;
  assert (1 =? int (n + 1)).

(** One pass of the [while(1)] of [santa]. *)
Definition santa : Prog unit :=
  CRITICAL santa_busy_mutex
    (fprintf stdout "Santa: zzZZzZzzzZZzzz (sleeping) \n" None) ;;
  sem_wait santa_sleep_mutex ;;
  fprintf stdout "Santa: I'm up, I'm up! Whaddya want? \n" None ;;
  santa_awake.

(** *** Elves *)

Definition get_help (id : Z) : Prog unit :=
  fprintf stdout "Elf %d got santa's help! \n" (Some id) ;;
  CRITICAL elf_counter_lock
    (decr num_elves_being_helped ;;
     n <- load num_elves_being_helped ;;
     if n =? 0 then
       sem_signal santa_busy_mutex ;;
       sem_signal_ntimes elf_counting_sem NUM_ELVES_PER_GROUP
     else Ret tt).

(** The elf gets in line: from [sem_wait(elf_counting_sem)] to the end of
    the block guarded by [elf_mutex]. *)
Definition elf_in_line (id : Z) : Prog unit :=
  sem_wait elf_counting_sem ;;
  CRITICAL elf_mutex
    (set_insert id ;;
     fprintf stdout "Elf %d in line for santa's help. \n" (Some id) ;;
     c <- set_cardinality ;;
     if NUM_ELVES_PER_GROUP =? c then
       fprintf stdout "Elves: waking up santa! \n" None ;;
       sem_signal santa_sleep_mutex
     else Ret tt).

(** One pass of the [while(1)] of [elf]. *)
Definition elf (id : Z) : Prog unit :=
  random_wait "Elf %d is working... \n" id ;;
  fprintf stdout "Elf %d needs Santa's help. \n" (Some id) ;;
  elf_in_line id ;;
  sem_wait_index elf_line_set id ;;
  get_help id.

(** *** Reindeer *)

Definition get_hitched (id : Z) : Prog unit :=
  fprintf stdout "Reindeer %d is getting hitched to the sleigh! \n"
    (Some id).

(** The reindeer comes back: up to the signal that wakes Santa. *)
Definition reindeer_back (id : Z) : Prog unit :=
  random_wait "Reindeer %d is off to the Tropics! \n" id ;;
  CRITICAL reindeer_counter_lock (incr num_reindeer_waiting) ;;
  fprintf stdout "Reindeer %d is back from the Tropics.\n" (Some id) ;;
  n <- load num_reindeer_waiting ;;
  if NUM_REINDEER <=? n then
    fprintf stdout "Reindeer %d: I'm the last one; I'll get santa!\n"
      (Some id) ;;
    sem_signal santa_sleep_mutex
  else Ret tt.

(** The reindeer leaves: from [sem_wait(reindeer_counting_sem)] on. *)
Definition reindeer_hitch (id : Z) : Prog unit :=
  sem_wait reindeer_counting_sem ;;
  CRITICAL reindeer_counter_lock
    (get_hitched id ;;
     decr num_reindeer_waiting ;;
     n <- load num_reindeer_waiting ;;
     if 0 =? n then
       fprintf stdout "Santa: Ho ho ho! Off to deliver presents! \n" None ;;
       exit EXIT_SUCCESS
     else Ret tt).

Definition reindeer (id : Z) : Prog unit :=
  reindeer_back id ;; reindeer_hitch id.

(** *** Start-up *)

Definition sequence_pthreads (num_threads : Z) (func : ThreadFn)
    (args : Z -> Z) : Prog unit :=
  for_loop (Z.to_nat num_threads) 0
    (fun i => do (PthreadCreate func (args i))).

Definition launch_threads : Prog unit :=
  let ids := fun i : Z => i in
  do (PthreadCreate fn_santa 0) ;;
  sequence_pthreads NUM_ELVES fn_elf ids ;;
  sequence_pthreads NUM_REINDEER fn_reindeer ids ;;
  for_upto 0 (1 + NUM_ELVES + NUM_REINDEER) (fun i => do (PthreadJoin i)).

Definition main : Prog Z :=
  sem_fill_set sem_set 7 ;;
  sem_fill_set elf_line_set NUM_ELVES ;;
  set_alloc NUM_ELVES ;;
  registered <- call Atexit ;;
  (if registered =? 0 then
     do SignalSigint ;;
     sem_unpack_set sem_set
       [reindeer_counter_lock; elf_counter_lock; santa_busy_mutex;
        santa_sleep_mutex; reindeer_counting_sem; elf_counting_sem;
        elf_mutex] ;;
     sem_init elf_mutex 1 ;;
     sem_init reindeer_counter_lock 1 ;;
     sem_init elf_counter_lock 1 ;;
     sem_init santa_busy_mutex 1 ;;
     sem_init santa_sleep_mutex 0 ;;
     sem_init reindeer_counting_sem 0 ;;
     sem_init elf_counting_sem NUM_ELVES_PER_GROUP ;;
     sem_init_all elf_line_set 0 ;;
     do Srand ;;
     launch_threads
   else
     fprintf stderr "Unable to register an at-exit handler.\n" None ;;
     free_resources) ;;
  set_free ;;
  Ret 0.

(** The process: [main], then the [exit] that returning from it implies. *)
Definition process : Prog unit := code <- main ;; exit code.

Definition spawn (fn : ThreadFn) (arg : Z) : Thread :=
  match fn with
  | fn_santa => mkThread santa_entry (Some santa)
  | fn_elf => mkThread (elf arg) (Some (elf arg))
  | fn_reindeer => mkThread (reindeer arg) None
  end.

(** The machine at process start: only [main] exists. *)
Definition boot (draws : nat -> Z) (atexit_succeeds : bool) : Machine :=
  mkMachine (fresh draws atexit_succeeds) [mkThread process None].

End Code.
End SleepGate.

(** ** [trunk/main.c] *)

Module Trunk.
Section Code.

Context {cfg : Config}.

(** [random_wait]: the message is printed without its argument when the
    argument is -1. *)
Definition random_wait (message : string) (format_var : Z) : Prog unit :=
  r <- call Rand ;;
  let i := uint (Z.rem r MAX_WAIT_TIME) in
  fprintf stdout message
    (if format_var =? -1 then None else Some format_var) ;;
  do (BusyWait i).

Definition get_value_and_increment (counter : Var) : Prog Z :=
  CRITICAL id_counter_mutex
    (id <- load counter ;;
     store counter (int (id + 1)) ;;
     Ret id).

Definition free_resources : Prog unit :=
  freed <- load resources_freed ;;
  if freed =? 0 then
    store resources_freed 1 ;;
    fprintf stdout "\nFreeing semaphores.\n" None ;;
    sem_empty_set sem_set ;;
    sem_empty_set elf_line_set ;;
    set_exit_free
  else Ret tt.

Definition exit (code : Z) : Prog unit := exit_with free_resources code.

Definition sigint_handler : Prog unit := exit EXIT_SUCCESS.

(** *** Santa *)

(** [help_elves].  The local [int i] is declared without a value and the
    loop starts with [i = i]: [i] stands for whatever the variable holds
    when the function is entered. *)
Definition help_elves (i : Z) : Prog unit :=
  fprintf stdout "Santa: noticed that there are elves waiting! \n" None ;;
  sem_wait santa_busy_mutex ;;
  CRITICAL elf_counter_lock
    (store num_elves_being_helped NUM_ELVES_PER_GROUP) ;;
  CRITICAL elf_mutex
    (for_upto i NUM_ELVES_PER_GROUP (fun _ =>
       elf <- set_take ;;
       fprintf stdout "Santa: helping elf: %d. \n" (Some elf) ;;
       sem_signal_index elf_line_set elf 1)).

Definition prepare_sleigh : Prog unit :=
  sem_wait santa_busy_mutex ;;
  fprintf stdout "Santa: preparing the sleigh. \n" None ;;
  sem_signal_ntimes reindeer_counting_sem NUM_REINDEER.

(** One pass of the [for(; i--; )] of [santa].  [junk] is what the
    uninitialised local of [help_elves] holds, should that be called. *)
Definition santa (junk : Z) : Prog unit :=
  CRITICAL santa_busy_mutex
    (random_wait "Santa: zzZZzZzzzZZzzz (sleeping) \n" (-1)) ;;
  n <- load num_reindeer_waiting ;;
  if NUM_REINDEER <=? n then
    store num_reindeer_waiting NUM_REINDEER ;;
    prepare_sleigh ;;
    sem_wait christmas_mutex
  else
    c <- set_cardinality ;;
    if 3 <=? c then help_elves junk else Ret tt.

(** *** Elves *)

Definition get_help (id : Z) : Prog unit :=
  fprintf stdout "Elf %d got santa's help! \n" (Some id) ;;
  CRITICAL elf_counter_lock
    (decr num_elves_being_helped ;;
     n <- load num_elves_being_helped ;;
     if n =? 0 then
       sem_signal santa_busy_mutex ;;
       sem_signal_ntimes elf_counting_sem NUM_ELVES_PER_GROUP
     else Ret tt).

(** What precedes the [while(1)] of [elf]. *)
Definition elf_entry : Prog Z :=
  get_value_and_increment (atomic_counter fn_elf).

(** One pass of the [while(1)] of [elf]. *)
Definition elf (id : Z) : Prog unit :=
  random_wait "Elf %d is working... \n" id ;;
  fprintf stdout "Elf %d needs Santa's help. \n" (Some id) ;;
  sem_wait elf_counting_sem ;;
  CRITICAL elf_mutex
    (set_insert id ;;
     fprintf stdout "Elf %d in line for santa's help. \n" (Some id) ;;
     sem_wait_index elf_line_set id) ;;
  get_help id.

(** *** Reindeer *)

Definition get_hitched (id : Z) : Prog unit :=
  fprintf stdout "Reindeer %d is getting hitched to the sleigh! \n"
    (Some id).

Definition reindeer : Prog unit :=
  id <- get_value_and_increment (atomic_counter fn_reindeer) ;;
  random_wait "Reindeer %d is on vacation... \n" id ;;
  CRITICAL reindeer_counter_lock (incr num_reindeer_waiting) ;;
  fprintf stdout
    "Reindeer %d waiting for the others to arrive back from vacation.\n"
    (Some id) ;;
  sem_wait reindeer_counting_sem ;;
  CRITICAL reindeer_counter_lock
    (get_hitched id ;;
     decr num_reindeer_waiting ;;
     n <- load num_reindeer_waiting ;;
     if 0 =? n then
       fprintf stdout "Ho ho ho! Off to deliver presents! \n" None ;;
       exit EXIT_SUCCESS
     else Ret tt).

(** *** Start-up *)

Definition launch_threads : Prog unit :=
  do (PthreadCreate fn_santa 0) ;;
  for_loop (Z.to_nat NUM_ELVES) 0 (fun _ => do (PthreadCreate fn_elf 0)) ;;
  for_loop (Z.to_nat NUM_REINDEER) 0
    (fun _ => do (PthreadCreate fn_reindeer 0)) ;;
  for_loop (Z.to_nat (1 + NUM_ELVES + NUM_REINDEER)) 0
    (fun j => do (PthreadJoin (NUM_ELVES + NUM_REINDEER - j))).

Definition main : Prog Z :=
  sem_fill_set sem_set 8 ;;
  sem_fill_set elf_line_set NUM_ELVES ;;
  set_alloc NUM_ELVES ;;
  registered <- call Atexit ;;
  (if registered =? 0 then
     do SignalSigint ;;
     sem_unpack_set sem_set
       [id_counter_mutex; reindeer_counter_lock; elf_counter_lock;
        santa_busy_mutex; reindeer_counting_sem; elf_counting_sem;
        christmas_mutex; elf_mutex] ;;
     sem_init elf_mutex 1 ;;
     sem_init id_counter_mutex 1 ;;
     sem_init reindeer_counter_lock 1 ;;
     sem_init elf_counter_lock 1 ;;
     sem_init santa_busy_mutex 1 ;;
     sem_init christmas_mutex 0 ;;
     sem_init reindeer_counting_sem 0 ;;
     sem_init elf_counting_sem NUM_ELVES_PER_GROUP ;;
     sem_init_all elf_line_set 0 ;;
     do Srand ;;
     launch_threads
   else
     fprintf stderr "Unable to register atexit handler.\n" None ;;
     free_resources) ;;
  set_free ;;
  Ret 0.

End Code.
End Trunk.

(** ** Scenarios *)


(** Elves getting in line one after the other. *)
Fixpoint line_up (ids : list Z) : Prog unit :=
  match ids with
  | [] => Ret tt
  | id :: rest => SleepGate.elf_in_line id ;; line_up rest
  end.

(** The shared state once [main] has initialised everything and created the
    threads (it is then blocked in [pthread_join]). *)
Definition started : Shared :=
  final (run SleepGate.main (fresh (fun _ => 1) true)).

Definition trunk_started : Shared :=
  final (run Trunk.main (fresh (fun _ => 1) true)).

(** [started] with the given elves in line and the given number of reindeer
    back. *)
Definition gathered (s : Shared) (elves : list Z) (reindeer_back : Z)
  : Shared :=
  set_elves_waiting
    (set_var s (upd_var (var s) num_reindeer_waiting reindeer_back))
    elves.




(** The lock discipline of the three actors of the version with the sleep
    gate, for a given notion of guard. *)
Definition lock_discipline (guard : Gate -> bool) : Prop :=
  (forall id, never_blocks_holding guard [] (SleepGate.elf id)) /\
  (forall id, never_blocks_holding guard [] (SleepGate.reindeer id)) /\
  never_blocks_holding guard [] SleepGate.santa_entry /\
  never_blocks_holding guard [] SleepGate.santa.


(** The machine once [main] has created the twenty threads: thread 0 is
    [main], thread 1 Santa, threads 2 to 10 the elves 0 to 8 and threads 11
    to 20 the reindeer 0 to 9. *)
Definition main_steps : list nat := repeat 0%nat 35.

Definition santa_tid : nat := 1.
Definition elf_tid (id : nat) : nat := 2 + id.
Definition reindeer_tid (id : nat) : nat := 11 + id.

(** A thread moving [n] times in a row. *)
Definition moves (tid : nat) (n : nat) : list nat := repeat tid n.

(** All ten reindeer come back and release [reindeer_counter_lock]; only
    then do reindeer 8 and 9 compare the counter with [NUM_REINDEER]. *)
Definition late_checks : list nat :=
  main_steps
  ++ flat_map (fun id => moves (reindeer_tid id) 7) (seq 0 10)
  ++ moves (reindeer_tid 8) 4
  ++ moves (reindeer_tid 9) 4.

(** Whether a thread cannot move. *)
Definition blocked (spawn : ThreadFn -> Z -> Thread) (tid : nat)
    (m : Machine) : bool :=
  match step spawn tid m with
  | Some _ => false
  | None => true
  end.

(** Santa serves elves 0, 1 and 2.  Elf 2, the last one served, signals
    [santa_busy_mutex] and [elf_counting_sem] and is preempted just before
    it signals [elf_counter_lock].  Elves 3, 4 and 5 get in line and wake
    Santa, who starts a second service. *)
Definition second_service : option Machine :=
  let served :=
    bursts SleepGate.spawn 200
      [0%nat; elf_tid 0; elf_tid 1; elf_tid 2; santa_tid;
       elf_tid 0; elf_tid 1]
      (SleepGate.boot (fun _ => 1) true) in
  option_map
    (bursts SleepGate.spawn 200 [elf_tid 3; elf_tid 4; elf_tid 5; santa_tid])
    (run_schedule SleepGate.spawn (moves (elf_tid 2) 10) served).

(** A whole run, each thread moving until it blocks: four elves go for
    help, Santa serves the first three, a fourth elf gets in line, the ten
    reindeer come back, Santa prepares the sleigh and the reindeer leave. *)
Definition christmas : list nat :=
  [0%nat; elf_tid 0; elf_tid 1; elf_tid 2; elf_tid 3; santa_tid;
   elf_tid 0; elf_tid 1; elf_tid 2; santa_tid; elf_tid 3]
  ++ map reindeer_tid (seq 0 10)
  ++ [santa_tid]
  ++ map reindeer_tid (seq 0 10).

(** The action a thread is about to perform. *)
Definition next_action (tid : nat) (m : Machine) : option Event :=
  match nth_error (pool m) tid with
  | Some t => match residual t with Act e _ => Some e | Ret _ => None end
  | None => None
  end.

(** What was printed with a given format. *)
Definition printed (fmt : string) (s : Shared) : list (option Z) :=
  map snd (filter (fun x => String.eqb (snd (fst x)) fmt) (console s)).

Unset Implicit Arguments.

(** ** Locks and the sections they guard *)

(** The thread-local use of [g] as a lock over the actions [touches]:
    [inside] tells whether the thread is between its wait and its signal on
    [g].  Whatever the actions answer, the program waits for [g] only
    outside, signals it only inside, never initialises it, performs the
    actions of [touches] only inside, and returns outside. *)
Fixpoint guarded {A : Type} (g : Gate) (touches : Event -> bool)
    (inside : bool) (p : Prog A) : Prop :=
  match p with
  | Ret _ => inside = false
  | Act e k =>
      match e with
      | SemWait h =>
          if Gate_eq_dec h g
          then inside = false /\ forall r, guarded g touches true (k r)
          else forall r, guarded g touches inside (k r)
      | SemSignal h =>
          if Gate_eq_dec h g
          then inside = true /\ forall r, guarded g touches false (k r)
          else forall r, guarded g touches inside (k r)
      | SemInit h _ =>
          h <> g /\ forall r, guarded g touches inside (k r)
      | SemInitAll t _ =>
          (forall i, slot t i <> g) /\
          forall r, guarded g touches inside (k r)
      | _ =>
          (touches e = true -> inside = true) /\
          forall r, guarded g touches inside (k r)
      end
  end.

Definition thread_guarded (g : Gate) (touches : Event -> bool)
    (inside : bool) (t : Thread) : Prop :=
  guarded g touches inside (residual t) /\
  match loop_body t with
  | Some b => guarded g touches false b
  | None => True
  end.

Definition holders (flags : list bool) : Z :=
  Z.of_nat (List.length (filter (fun b : bool => b) flags)).

(** The invariant of a lock: every thread uses it as a lock, and its value
    plus the number of threads inside is 1. *)
Definition lock_invariant (g : Gate) (touches : Event -> bool)
    (m : Machine) : Prop :=
  exists flags : list bool,
    Forall2 (fun t b => thread_guarded g touches b t) (pool m) flags /\
    0 <= sem (shared m) g /\
    sem (shared m) g + holders flags = 1.

(** Whether a program is inside a section of [g]: the next thing it does to
    [g] is to signal it.  The program is followed along the answer 0; for a
    program that is [guarded] every answer gives the same result. *)
Fixpoint holds {A : Type} (g : Gate) (p : Prog A) : bool :=
  match p with
  | Ret _ => false
  | Act e k =>
      match e with
      | SemWait h => if Gate_eq_dec h g then false else holds g (k 0)
      | SemSignal h => if Gate_eq_dec h g then true else holds g (k 0)
      | _ => holds g (k 0)
      end
  end.

(** The number of threads inside a section of [g]. *)
Definition inside_count (g : Gate) (m : Machine) : Z :=
  Z.of_nat (List.length (filter (fun t => holds g (residual t)) (pool m))).

(** Whether the next action of a thread is one of [touches]. *)
Definition about_to (touches : Event -> bool) (t : Thread) : bool :=
  match residual t with
  | Act e _ => touches e
  | Ret _ => false
  end.

(** Whether no thread is about to perform an action of [touches]. *)
Definition nobody (touches : Event -> bool) (m : Machine) : bool :=
  forallb (fun t => negb (about_to touches t)) (pool m).

(** Reading or writing [num_elves_being_helped]. *)
Definition is_help_counter_access (e : Event) : bool :=
  match e with
  | Load num_elves_being_helped | Store num_elves_being_helped _ => true
  | _ => false
  end.

(** Changing the waiting set. *)
Definition is_set_update (e : Event) : bool :=
  match e with
  | SetInsert _ | SetTake => true
  | _ => false
  end.

Definition lock_law (g : Gate) (touches : Event -> bool) (m : Machine)
  : Prop :=
  0 <= sem (shared m) g /\
  sem (shared m) g + inside_count g m = 1 /\
  forall t, In t (pool m) -> about_to touches t = true ->
            holds g (residual t) = true.

(** ** The first moves of [main] *)

(** Whether, after each of the first [n] moves of thread 0, the pool still
    has a single thread and the machine passes [check]. *)
Definition early (spawn : ThreadFn -> Z -> Thread) (check : Machine -> bool)
    (n : nat) (m : Machine) : bool :=
  forallb
    (fun j => match run_schedule spawn (repeat 0%nat j) m with
              | Some mj => Nat.eqb (List.length (pool mj)) 1 && check mj
              | None => true
              end)
    (seq 0 n).

(** What is left of the process once [main] has initialised the semaphores:
    [launch_threads], [set_free], and the [exit] that [return 0] implies. *)
Definition launch_and_exit : Prog unit :=
  code <- (SleepGate.launch_threads ;; set_free ;; Ret 0) ;;
  SleepGate.exit code.

(** What was written on [stderr]. *)
Definition errors (s : Shared) : list (Stream * string * option Z) :=
  filter (fun l => match fst (fst l) with stderr => true | stdout => false end)
    (console s).

(** How many times [santa] was passed to [pthread_create]. *)
Definition santas (s : Shared) : Z :=
  Z.of_nat
    (List.length
       (filter (fun c => match fst c with fn_santa => true | _ => false end)
          (created s))).

(** The machine when [main] is about to create the first thread. *)
Definition at_launch (m : Machine) : Prop :=
  pool m = [mkThread launch_and_exit None] /\
  exit_status (shared m) = None /\
  errors (shared m) = [] /\
  santas (shared m) = 0 /\
  var (shared m) num_launched = 0 /\
  sem (shared m) elf_mutex = 1 /\
  sem (shared m) elf_counter_lock = 1 /\
  sem (shared m) reindeer_counter_lock = 1.

(** Whether the process runs, has printed no error, has created no Santa
    and has counted none. *)
Definition untouched (m : Machine) : bool :=
  match exit_status (shared m) with None => true | Some _ => false end
  && match errors (shared m) with [] => true | _ => false end
  && (santas (shared m) =? 0)
  && (var (shared m) num_launched =? 0).

(** ** One Santa *)

(** A program that never stores to [num_launched], never creates a Santa,
    never writes on [stderr] and never exits with a status other than
    [EXIT_SUCCESS], whatever its actions answer. *)
Fixpoint quiet {A : Type} (p : Prog A) : Prop :=
  match p with
  | Ret _ => True
  | Act e k =>
      match e with
      | Store num_launched _ => False
      | PthreadCreate fn_santa _ => False
      | Fprintf stderr _ _ => False
      | Halt code => code = EXIT_SUCCESS
      | _ => True
      end /\
      forall r, quiet (k r)
  end.

Definition quiet_thread (t : Thread) : Prop :=
  quiet (residual t) /\
  match loop_body t with
  | Some b => quiet b
  | None => True
  end.

(** Santa before its loop: about to read [num_launched], or about to store
    the 1 it computed from the 0 it read. *)
Definition entering (t : Thread) : Prop :=
  loop_body t = Some SleepGate.santa /\
  (residual t = SleepGate.santa_entry \/
   residual t = (store num_launched (int (0 + 1)) ;;
                 SleepGate.assert (1 =? int (0 + 1)))).

(** The process runs or has exited with [EXIT_SUCCESS], and nothing was
    written on [stderr]. *)
Definition sound (s : Shared) : Prop :=
  (exit_status s = None \/ exit_status s = Some EXIT_SUCCESS) /\
  errors s = [].

(** The three phases of a run: [main] is about to create Santa; Santa is
    created and has not yet counted itself; Santa has counted itself. *)
Definition one_santa (m : Machine) : Prop :=
  sound (shared m) /\
  ((var (shared m) num_launched = 0 /\ santas (shared m) = 0 /\
    pool m = [mkThread launch_and_exit None]) \/
   (var (shared m) num_launched = 0 /\ santas (shared m) = 1 /\
    exists main santa rest,
      pool m = main :: santa :: rest /\
      quiet_thread main /\ entering santa /\ Forall quiet_thread rest) \/
   (var (shared m) num_launched = 1 /\ santas (shared m) = 1 /\
    Forall quiet_thread (pool m))).

(** The threads an action starts. *)
Definition born (spawn : ThreadFn -> Z -> Thread) (e : Event) : list Thread :=
  match e with
  | PthreadCreate fn arg => [spawn fn arg]
  | _ => []
  end.

(** ** More scenarios *)

(** What [free_resources] releases. *)
Definition teardown : list Resource :=
  [semaphores sem_set; semaphores elf_line_set; waiting_set].

(** What [exit] releases: the at-exit handler runs if it was registered,
    and frees the resources unless that was done already. *)
Definition released_at_exit (s : Shared) : list Resource :=
  if atexit_registered s
  then if var s resources_freed =? 0 then teardown else []
  else [].

(** The threads [launch_threads] creates, in order of creation, each with
    the value its argument points to. *)
Definition roster (cfg : Config) : list (ThreadFn * Z) :=
  (fn_santa, 0)
  :: map (fun i => (fn_elf, Z.of_nat i)) (seq 0 (Z.to_nat NUM_ELVES))
  ++ map (fun i => (fn_reindeer, Z.of_nat i))
       (seq 0 (Z.to_nat NUM_REINDEER)).

(** [n] threads taking their identifier one after the other, as the elves
    and the reindeer of [trunk/main.c] do when they start. *)
Fixpoint take_ids (counter : Var) (n : nat) : Prog (list Z) :=
  match n with
  | O => Ret []
  | S n' =>
      id <- Trunk.get_value_and_increment counter ;;
      rest <- take_ids counter n' ;;
      Ret (id :: rest)
  end.

(** Reindeer coming back one after the other. *)
Fixpoint come_back (ids : list Z) : Prog unit :=
  match ids with
  | [] => Ret tt
  | id :: rest => SleepGate.reindeer_back id ;; come_back rest
  end.

(** The protocol at rest: Santa is free and asleep, the admission gate has
    its [NUM_ELVES_PER_GROUP] credits, the locks of the elves are free, no
    elf is in line or has been woken, and the reindeer are not all back. *)
Definition idle (s : Shared) : Prop :=
  exit_status s = None /\
  sem s santa_busy_mutex = 1 /\
  sem s santa_sleep_mutex = 0 /\
  sem s elf_counting_sem = NUM_ELVES_PER_GROUP /\
  sem s elf_mutex = 1 /\
  sem s elf_counter_lock = 1 /\
  (forall id, sem s (slot elf_line_set id) = 0) /\
  elves_waiting s = [] /\
  var s num_reindeer_waiting < NUM_REINDEER.

(** The end of a pass of [elf]: the elf waits to be woken and gets help. *)
Definition served (id : Z) : Prog unit :=
  sem_wait_index elf_line_set id ;; SleepGate.get_help id.

(** A service window: three elves get in line, Santa wakes and helps them,
    and each gets his help. *)
Definition service_window (a b c : Z) : Prog unit :=
  line_up [a; b; c] ;; SleepGate.santa ;;
  served a ;; served b ;; served c.

(** A build with groups of two elves. *)
Definition pairs : Config := {|
  NUM_REINDEER := 10;
  NUM_ELVES := 9;
  NUM_ELVES_PER_GROUP := 2
|}.

(** Elves 0, 1 and 2 get in line and Santa wakes, enters [help_elves] and
    takes [elf_counter_lock]. *)
Definition santa_sets_the_counter : list nat :=
  main_steps ++ moves (elf_tid 0) 10 ++ moves (elf_tid 1) 10
  ++ moves (elf_tid 2) 12 ++ moves santa_tid 13.

(** Elf 0 works, is admitted and takes [elf_mutex]. *)
Definition elf_takes_the_line : list nat :=
  main_steps ++ moves (elf_tid 0) 6.

Set Implicit Arguments.

(** * Properties *)

(** ** Reasoning about runs *)

Lemma ltb_of (a : Z) : 0 < a -> (0 <? a) = true.
Proof. intro H; apply Z.ltb_lt; exact H. Qed.

Lemma int_small (z : Z) : - 2 ^ 31 <= z < 2 ^ 31 -> int z = z.
Proof.
  intro H. unfold int. rewrite Z.mod_small; lia.
Qed.

(** One action of a run, when the action returns. *)
Lemma step_act {A : Type} (e : Event) (k : Z -> Prog A) (s : Shared)
    (tr : list (Event * Z)) (s' : Shared) (r : Z) :
  exit_status s = None ->
  perform e s = Returns s' r ->
  run_from (Act e k) s tr = run_from (k r) s' (tr ++ [(e, r)]).
Proof. intros Hx Hp. cbn. rewrite Hx, Hp. reflexivity. Qed.

(** A wait on a semaphore that has a credit takes it. *)
Lemma step_wait {A : Type} (g : Gate) (k : Z -> Prog A) (s : Shared)
    (tr : list (Event * Z)) :
  exit_status s = None ->
  0 < sem s g ->
  run_from (Act (SemWait g) k) s tr =
  run_from (k 0) (set_sem s (upd_gate (sem s) g (sem s g - 1)))
    (tr ++ [(SemWait g, 0)]).
Proof.
  intros Hx Hg. apply step_act; [exact Hx |].
  cbn. rewrite (ltb_of Hg). reflexivity.
Qed.

(** A wait on a semaphore without credit blocks. *)
Lemma step_blocked {A : Type} (g : Gate) (k : Z -> Prog A) (s : Shared)
    (tr : list (Event * Z)) :
  exit_status s = None ->
  sem s g <= 0 ->
  run_from (Act (SemWait g) k) s tr = mkOutcome s tr (Blocked (SemWait g)).
Proof.
  intros Hx Hg. cbn. rewrite Hx.
  replace (0 <? sem s g) with false by (symmetry; apply Z.ltb_ge; exact Hg).
  reflexivity.
Qed.

(** Taking from a set that has a member. *)
Lemma step_take {A : Type} (k : Z -> Prog A) (s : Shared)
    (tr : list (Event * Z)) (item : Z) (rest : list Z) :
  exit_status s = None ->
  elves_waiting s = item :: rest ->
  run_from (Act SetTake k) s tr =
  run_from (k item) (set_elves_waiting s rest) (tr ++ [(SetTake, item)]).
Proof.
  intros Hx Hw. apply step_act; [exact Hx |]. cbn. rewrite Hw. reflexivity.
Qed.

(** Nothing runs once the process has exited. *)
Lemma step_exited {A : Type} (e : Event) (k : Z -> Prog A) (s : Shared)
    (tr : list (Event * Z)) (c : Z) :
  exit_status s = Some c ->
  run_from (Act e k) s tr = mkOutcome s tr Exited.
Proof. intro Hx. cbn. rewrite Hx. reflexivity. Qed.

Ltac side := cbn; first [assumption | reflexivity | lia].

(** Replace the run [run_from p s tr] in [H] by [rhs], which [tac] shows
    equal to it. *)
Ltac advance H p s tr rhs tac :=
  let E := fresh "E" in
  assert (E : run_from p s tr = rhs) by tac;
  rewrite E in H; clear E.

(** A state written as one record of its fields, each computed. *)
Ltac flat x :=
  let y := eval cbv delta
    [set_sem set_var set_elves_waiting set_console set_rand_calls
     set_atexit_registered set_sigint_installed set_acquired set_released
     set_created set_terminated set_exit_status] in x in
  eval cbn in y.

(** Symbolic execution of the run recorded in [H], one action at a time:
    the program is brought to its first action, the answer, the new state
    and the new trace are computed, and a step lemma justifies the move. *)
Ltac step H :=
  lazymatch type of H with
  | context [@run_from ?A ?p ?s ?tr] =>
      let p' := eval hnf in p in
      lazymatch p' with
      | Ret ?a =>
          change (run_from p s tr) with (mkOutcome s tr (Finished a)) in H
      | Act ?e ?k =>
          let x := eval cbn in (exit_status s) in
          lazymatch x with
          | Some ?c =>
              advance H p s tr (mkOutcome s tr (@Exited A))
                ltac:(apply (@step_exited _ e k s tr c); side)
          | _ =>
              lazymatch e with
              | SemWait ?g =>
                  let s' :=
                    flat (set_sem s (upd_gate (sem s) g (sem s g - 1))) in
                  let tr' := eval cbn in (tr ++ [(SemWait g, 0)]) in
                  let q := eval cbn [bind] in (k 0) in
                  first
                    [ advance H p s tr (run_from q s' tr')
                        ltac:(apply (@step_wait _ g k s tr); side)
                    | advance H p s tr
                        (mkOutcome s tr (@Blocked A (SemWait g)))
                        ltac:(apply (@step_blocked _ g k s tr); side) ]
              | SetTake =>
                  let l := eval cbn in (elves_waiting s) in
                  let l' :=
                    lazymatch l with
                    | _ :: _ => l
                    | _ => lazymatch goal with Hl : l = ?l' |- _ => l' end
                    end in
                  lazymatch l' with
                  | ?item :: ?rest =>
                      let s' := flat (set_elves_waiting s rest) in
                      let tr' := eval cbn in (tr ++ [(SetTake, item)]) in
                      let q := eval cbn [bind] in (k item) in
                      advance H p s tr (run_from q s' tr')
                        ltac:(apply (@step_take _ k s tr item rest); side)
                  end
              | _ =>
                  let rep := eval cbn in (perform e s) in
                  let rep' :=
                    lazymatch rep with
                    | Returns _ _ => rep
                    | if ?c then ?a else ?b =>
                        lazymatch goal with
                        | Hc : c = true |- _ => a
                        | Hc : c = false |- _ => b
                        end
                    end in
                  lazymatch rep' with
                  | Returns ?s1 ?r =>
                      let s' := flat s1 in
                      let tr' := eval cbn in (tr ++ [(e, r)]) in
                      let q := eval cbn [bind] in (k r) in
                      advance H p s tr (run_from q s' tr')
                        ltac:(apply (@step_act _ e k s tr s' r);
                              [ side
                              | cbn;
                                repeat match goal with
                                | Hc : ?c = _ |- context [if ?c then _ else _]
                                  => rewrite Hc
                                end;
                                reflexivity ])
                  end
              end
          end
      end
  end.

Ltac steps H := repeat step H.

(** Case analysis on a test the run in [H] is stuck on. *)
Ltac branch c E H := destruct c eqn:E; try rewrite E in H.

Ltac name_run o Ho :=
  match goal with
  | |- context [run ?p ?s] =>
      remember (run p s) as o eqn:Ho; unfold run in Ho
  end.

(** Running a sequence is running its first part and then, if that
    returned, the rest. *)
Lemma run_from_bind {A B : Type} (p : Prog A) (f : A -> Prog B)
    (s : Shared) (tr : list (Event * Z)) :
  run_from (bind p f) s tr =
  let o := run_from p s tr in
  match status o with
  | Finished a => run_from (f a) (final o) (trace o)
  | Blocked e => mkOutcome (final o) (trace o) (Blocked e)
  | Exited => mkOutcome (final o) (trace o) Exited
  | OutOfContract e => mkOutcome (final o) (trace o) (OutOfContract e)
  end.
Proof.
  revert s tr. induction p as [a | e k IH]; intros s tr; cbn.
  - reflexivity.
  - destruct (exit_status s); [reflexivity |].
    destruct (perform e s); [apply IH | reflexivity | reflexivity].
Qed.

(** A run only ever extends the trace it was given. *)
Lemma run_from_trace {A : Type} (p : Prog A) (s : Shared)
    (tr : list (Event * Z)) :
  run_from p s tr =
  mkOutcome (final (run p s)) (tr ++ trace (run p s)) (status (run p s)).
Proof.
  unfold run. revert s tr. induction p as [a | e k IH]; intros s tr; cbn.
  - now rewrite app_nil_r.
  - destruct (exit_status s); [now rewrite app_nil_r |].
    destruct (perform e s) as [s' r | |]; try now rewrite app_nil_r.
    rewrite (IH r s' (tr ++ [(e, r)])), (IH r s' [(e, r)]). cbn.
    now rewrite <- app_assoc.
Qed.

Lemma count_app (f : Event * Z -> bool) (t u : list (Event * Z)) :
  count f (t ++ u) = count f t + count f u.
Proof.
  unfold count. rewrite filter_app, length_app. lia.
Qed.

(** ** The delay loop *)

Lemma busy_wait_iterations_spec (i : Z) :
  busy_wait_iterations i = uint (i - 1).
Proof.
  funelim (busy_wait_iterations i).
  - congruence.
  - match goal with IH : busy_wait_iterations _ = uint _ |- _ => rewrite IH end.
    unfold uint in *.
    assert (0 <= (i - 1) mod 2 ^ 32 < 2 ^ 32) by (apply Z.mod_pos_bound; lia).
    rewrite (Z.mod_small ((i - 1) mod 2 ^ 32 - 1)) by lia.
    lia.
Qed.

(** The values [random_wait] can start its loop with: [rand()] is not
    negative and the draw is its remainder by [MAX_WAIT_TIME]. *)
Lemma draw_range (r : Z) :
  0 <= r -> 0 <= uint (Z.rem r MAX_WAIT_TIME) < MAX_WAIT_TIME.
Proof.
  intro Hr.
  assert (HM : MAX_WAIT_TIME = 134217727) by reflexivity.
  assert (H : 0 <= Z.rem r MAX_WAIT_TIME < MAX_WAIT_TIME).
  { rewrite Z.rem_mod_nonneg by lia. apply Z.mod_pos_bound. lia. }
  unfold uint. rewrite Z.mod_small; lia.
Qed.

(** C10: the delay loop of [random_wait] ends for every starting value;
    started with a draw [v > 0] it runs [v - 1] times, started with the
    draw 0 the decrement wraps and it runs [2 ^ 32 - 1] times, so the count
    is not monotone in the draw and no draw waits longer than the draw 0. *)
Theorem random_wait_delay_not_monotone :
  (forall v, 0 < v < 2 ^ 32 -> busy_wait_iterations v = v - 1) /\
  busy_wait_iterations 0 = 2 ^ 32 - 1 /\
  (forall r, 0 <= r ->
     busy_wait_iterations (uint (Z.rem r MAX_WAIT_TIME))
       <= busy_wait_iterations 0) /\
  (forall v, 0 < v < MAX_WAIT_TIME ->
     busy_wait_iterations v < busy_wait_iterations 0).
Proof.
  assert (H0 : busy_wait_iterations 0 = 2 ^ 32 - 1).
  { rewrite busy_wait_iterations_spec. reflexivity. }
  assert (Hv : forall v, 0 < v < 2 ^ 32 -> busy_wait_iterations v = v - 1).
  { intros v H. rewrite busy_wait_iterations_spec. unfold uint.
    apply Z.mod_small. lia. }
  assert (HM : MAX_WAIT_TIME = 134217727) by reflexivity.
  split; [exact Hv |]. split; [exact H0 |]. split.
  - intros r Hr. pose proof (draw_range Hr) as Hd.
    destruct (Z.eq_dec (uint (Z.rem r MAX_WAIT_TIME)) 0) as [E | E].
    + rewrite E. lia.
    + rewrite Hv by lia. rewrite H0. lia.
  - intros v H. rewrite Hv by lia. rewrite H0. lia.
Qed.

(** The theorem at the draws 1 and 5. *)
Lemma random_wait_delay_witness :
  busy_wait_iterations 5 = 4 /\
  busy_wait_iterations 1 < busy_wait_iterations 0.
Proof.
  split.
  - apply (proj1 random_wait_delay_not_monotone 5). lia.
  - apply (proj2 (proj2 (proj2 random_wait_delay_not_monotone)) 1).
    vm_compute. split; reflexivity.
Defined.

(** ** The end of a service window *)

(** C7: [get_help] decrements [num_elves_being_helped] under
    [elf_counter_lock]; when the counter reaches 0 the elf signals
    [santa_busy_mutex] once and [elf_counting_sem] [NUM_ELVES_PER_GROUP]
    times, and when it does not the elf signals neither.  [get_help] is the
    same in both versions. *)
Theorem get_help_last_elf_releases (id : Z) (s : Shared) :
  exit_status s = None ->
  0 < sem s elf_counter_lock ->
  let o := run (SleepGate.get_help id) s in
  status o = Finished tt /\
  var (final o) num_elves_being_helped
    = int (var s num_elves_being_helped - 1) /\
  (var (final o) num_elves_being_helped = 0 ->
     count (is_signal_of santa_busy_mutex) (trace o) = 1 /\
     sem (final o) santa_busy_mutex = sem s santa_busy_mutex + 1 /\
     count (is_signal_of elf_counting_sem) (trace o) = NUM_ELVES_PER_GROUP /\
     sem (final o) elf_counting_sem
       = sem s elf_counting_sem + NUM_ELVES_PER_GROUP) /\
  (var (final o) num_elves_being_helped <> 0 ->
     count (is_signal_of santa_busy_mutex) (trace o) = 0 /\
     sem (final o) santa_busy_mutex = sem s santa_busy_mutex /\
     count (is_signal_of elf_counting_sem) (trace o) = 0 /\
     sem (final o) elf_counting_sem = sem s elf_counting_sem) /\
  run (Trunk.get_help id) s = o.
Proof.
  intros Hx Hl o. subst o.
  change (Trunk.get_help id) with (SleepGate.get_help id).
  name_run o Ho. do 5 step Ho.
  branch (int (var s num_elves_being_helped - 1) =? 0) E Ho;
    [apply Z.eqb_eq in E | apply Z.eqb_neq in E];
    steps Ho; subst o; cbn;
    repeat split; intros; try reflexivity; try lia; try contradiction.
Qed.

(** The theorem where the last of three elves is served. *)
Lemma get_help_last_elf_witness :
  let s := set_var started (upd_var (var started) num_elves_being_helped 1) in
  let o := run (SleepGate.get_help 4) s in
  var (final o) num_elves_being_helped = 0 /\
  sem (final o) elf_counting_sem = 6.
Proof.
  cbv zeta.
  destruct (@get_help_last_elf_releases 4
              (set_var started (upd_var (var started) num_elves_being_helped 1)))
    as (_ & Hv & Hz & _).
  - reflexivity.
  - vm_compute. reflexivity.
  - split.
    + rewrite Hv. vm_compute. reflexivity.
    + destruct Hz as (_ & _ & _ & Hs).
      * rewrite Hv. vm_compute. reflexivity.
      * rewrite Hs. vm_compute. reflexivity.
Defined.

(** ** Teardown *)

(** C8: a second call of [free_resources] does nothing: it reads
    [resources_freed], finds it set, and returns; it frees nothing, prints
    nothing and leaves the state as the first call left it.  This holds for
    the [free_resources] of both versions. *)
Theorem free_resources_idempotent (s : Shared) :
  exit_status s = None ->
  let first := run SleepGate.free_resources s in
  let second := run SleepGate.free_resources (final first) in
  let trunk_first := run Trunk.free_resources s in
  let trunk_second := run Trunk.free_resources (final trunk_first) in
  (status first = Finished tt /\
   status second = Finished tt /\
   final second = final first /\
   count is_release (trace second) = 0 /\
   count is_output (trace second) = 0 /\
   trace second
     = [(Load resources_freed, var (final first) resources_freed)]) /\
  (status trunk_first = Finished tt /\
   status trunk_second = Finished tt /\
   final trunk_second = final trunk_first /\
   count is_release (trace trunk_second) = 0 /\
   count is_output (trace trunk_second) = 0 /\
   trace trunk_second
     = [(Load resources_freed, var (final trunk_first) resources_freed)]).
Proof.
  intros Hx first second trunk_first trunk_second.
  subst second trunk_second. split.
  - subst first. clear trunk_first.
    name_run o1 H1. step H1.
    branch (var s resources_freed =? 0) E H1.
    + steps H1. subst o1. cbn [final status].
      name_run o2 H2. steps H2. subst o2. cbn.
      repeat split; reflexivity.
    + steps H1. subst o1. cbn [final status].
      name_run o2 H2. step H2. rewrite E in H2. steps H2. subst o2. cbn.
      repeat split; reflexivity.
  - subst trunk_first. clear first.
    name_run o1 H1. step H1.
    branch (var s resources_freed =? 0) E H1.
    + steps H1. subst o1. cbn [final status].
      name_run o2 H2. steps H2. subst o2. cbn.
      repeat split; reflexivity.
    + steps H1. subst o1. cbn [final status].
      name_run o2 H2. step H2. rewrite E in H2. steps H2. subst o2. cbn.
      repeat split; reflexivity.
Qed.

(** The theorem on the state [main] has set up: the first call frees the two
    semaphore sets and the waiting set, the second frees nothing. *)
Lemma free_resources_idempotent_witness :
  let first := run SleepGate.free_resources started in
  let second := run SleepGate.free_resources (final first) in
  released (final first) = [semaphores sem_set; semaphores elf_line_set;
                            waiting_set] /\
  final second = final first.
Proof.
  cbv zeta. split.
  - vm_compute. reflexivity.
  - apply (@free_resources_idempotent started). reflexivity.
Defined.

(** ** Getting in line *)

(** An elf that gets in line with both semaphores available adds itself to
    the set and signals [santa_sleep_mutex] once if the set then has
    [NUM_ELVES_PER_GROUP] members, and not at all otherwise. *)
Lemma elf_in_line_run (id : Z) (s : Shared) (tr : list (Event * Z)) :
  exit_status s = None ->
  0 < sem s elf_counting_sem ->
  0 < sem s elf_mutex ->
  let wakes :=
    if NUM_ELVES_PER_GROUP =? Z.of_nat (List.length (elves_waiting s ++ [id]))
    then 1 else 0 in
  let o := run_from (SleepGate.elf_in_line id) s tr in
  status o = Finished tt /\
  exit_status (final o) = None /\
  elves_waiting (final o) = elves_waiting s ++ [id] /\
  sem (final o) santa_sleep_mutex = sem s santa_sleep_mutex + wakes /\
  sem (final o) elf_counting_sem = sem s elf_counting_sem - 1 /\
  sem (final o) elf_mutex = sem s elf_mutex /\
  count (is_signal_of santa_sleep_mutex) (trace o)
    = count (is_signal_of santa_sleep_mutex) tr + wakes.
Proof.
  intros Hx Hc Hm wakes o. subst o wakes.
  remember (run_from (SleepGate.elf_in_line id) s tr) as o eqn:Ho.
  do 5 step Ho.
  branch (NUM_ELVES_PER_GROUP
            =? Z.of_nat (List.length (elves_waiting s ++ [id]))) E Ho;
    steps Ho; subst o; cbn;
    rewrite ?count_app; cbn;
    repeat split; try reflexivity; try assumption; lia.
Qed.

Lemma line_up_cons (id : Z) (rest : list Z) (s : Shared)
    (tr : list (Event * Z)) :
  exit_status s = None ->
  0 < sem s elf_counting_sem ->
  0 < sem s elf_mutex ->
  run_from (line_up (id :: rest)) s tr =
  run_from (line_up rest)
    (final (run_from (SleepGate.elf_in_line id) s tr))
    (trace (run_from (SleepGate.elf_in_line id) s tr)).
Proof.
  intros Hx Hc Hm. cbn [line_up]. rewrite run_from_bind. cbv zeta.
  destruct (@elf_in_line_run id s tr Hx Hc Hm) as (Hst & _).
  rewrite Hst. reflexivity.
Qed.

(** C6: an elf raises Santa's trigger exactly when its own insertion brings
    the waiting set to [NUM_ELVES_PER_GROUP] members.  From an empty set the
    first two elves to get in line raise nothing and the third raises the
    trigger once. *)
Theorem elf_wakes_santa_on_third_join (id : Z) (s : Shared) :
  exit_status s = None ->
  0 < sem s elf_counting_sem ->
  0 < sem s elf_mutex ->
  let o := run (SleepGate.elf_in_line id) s in
  let members := Z.of_nat (List.length (elves_waiting s)) + 1 in
  status o = Finished tt /\
  elves_waiting (final o) = elves_waiting s ++ [id] /\
  (members = NUM_ELVES_PER_GROUP ->
     count (is_signal_of santa_sleep_mutex) (trace o) = 1 /\
     sem (final o) santa_sleep_mutex = sem s santa_sleep_mutex + 1) /\
  (members <> NUM_ELVES_PER_GROUP ->
     count (is_signal_of santa_sleep_mutex) (trace o) = 0 /\
     sem (final o) santa_sleep_mutex = sem s santa_sleep_mutex) /\
  (elves_waiting s = [] ->
   3 <= sem s elf_counting_sem ->
   forall second third,
     count (is_signal_of santa_sleep_mutex)
       (trace (run (line_up [id; second]) s)) = 0 /\
     count (is_signal_of santa_sleep_mutex)
       (trace (run (line_up [id; second; third]) s)) = 1 /\
     elves_waiting (final (run (line_up [id; second; third]) s))
       = [id; second; third]).
Proof.
  intros Hx Hc Hm o members.
  destruct (@elf_in_line_run id s [] Hx Hc Hm)
    as (Hst & _ & Hw & Hs & _ & _ & Hn).
  fold (run (SleepGate.elf_in_line id) s) in Hst, Hw, Hs, Hn. fold o in Hst, Hw, Hs, Hn.
  rewrite length_app in Hs, Hn. cbn [List.length] in Hs, Hn.
  rewrite Nat2Z.inj_add in Hs, Hn. change (Z.of_nat 1) with 1 in Hs, Hn.
  fold members in Hs, Hn. change (count _ []) with 0 in Hn.
  split; [exact Hst |]. split; [exact Hw |]. split; [| split].
  - intro E. rewrite <- E, Z.eqb_refl in Hs, Hn. split; [exact Hn | exact Hs].
  - intro E. apply not_eq_sym in E. apply Z.eqb_neq in E.
    rewrite E in Hs, Hn. split; lia.
  - intros He H3 second third. unfold run.
    destruct (@elf_in_line_run id s [] Hx Hc Hm)
      as (_ & Hx1 & Hw1 & _ & Hc1 & Hm1 & Hn1).
    rewrite !(@line_up_cons id) by assumption.
    remember (run_from (SleepGate.elf_in_line id) s []) as o1.
    destruct (@elf_in_line_run second (final o1) (trace o1) Hx1
                ltac:(lia) ltac:(lia))
      as (_ & Hx2 & Hw2 & _ & Hc2 & Hm2 & Hn2).
    rewrite !(@line_up_cons second) by (assumption || lia).
    remember (run_from (SleepGate.elf_in_line second) (final o1) (trace o1))
      as o2.
    destruct (@elf_in_line_run third (final o2) (trace o2) Hx2
                ltac:(lia) ltac:(lia))
      as (_ & Hx3 & Hw3 & _ & Hc3 & Hm3 & Hn3).
    rewrite !(@line_up_cons third) by (assumption || lia).
    remember (run_from (SleepGate.elf_in_line third) (final o2) (trace o2))
      as o3.
    cbn [line_up run_from final trace status].
    rewrite He in Hn1, Hw1. cbn in Hn1, Hw1.
    rewrite Hw1 in Hn2, Hw2. cbn in Hn2, Hw2.
    rewrite Hw2 in Hn3, Hw3. cbn in Hn3, Hw3.
    repeat split; [lia | lia | exact Hw3].
Qed.

(** The theorem on the state [main] has set up, for elf 0, and for three
    elves in a row. *)
Lemma elf_wakes_santa_on_third_join_witness :
  count (is_signal_of santa_sleep_mutex)
    (trace (run (line_up [0; 1]) started)) = 0 /\
  count (is_signal_of santa_sleep_mutex)
    (trace (run (line_up [0; 1; 2]) started)) = 1 /\
  elves_waiting (final (run (line_up [0; 1; 2]) started)) = [0; 1; 2].
Proof.
  refine (proj2 (proj2 (proj2 (proj2
            (@elf_wakes_santa_on_third_join 0 started _ _ _)))) _ _ 1 2);
    vm_compute; congruence.
Defined.

(** ** Santa's choice *)

(** C3: when Santa wakes with [NUM_REINDEER] reindeer back and three elves
    or more in line, he prepares the sleigh: the counter is set to
    [NUM_REINDEER], [santa_busy_mutex] is taken, [reindeer_counting_sem] is
    signalled [NUM_REINDEER] times and Santa then blocks; no elf is taken
    out of the set, no elf is woken and the service counter is left alone.
    The same holds for a pass of Santa's loop in [trunk/main.c]. *)
Theorem santa_prefers_the_sleigh (s : Shared) (i : Z) :
  exit_status s = None ->
  NUM_REINDEER <= var s num_reindeer_waiting ->
  3 <= Z.of_nat (List.length (elves_waiting s)) ->
  sem s santa_busy_mutex = 1 ->
  sem s christmas_mutex = 0 ->
  let sleigh o :=
    count (is_signal_of reindeer_counting_sem) (trace o) = NUM_REINDEER /\
    sem (final o) reindeer_counting_sem
      = sem s reindeer_counting_sem + NUM_REINDEER /\
    sem (final o) santa_busy_mutex = 0 /\
    var (final o) num_reindeer_waiting = NUM_REINDEER /\
    In (stdout, "Santa: preparing the sleigh. \n", None)
      (console (final o)) in
  let no_help o :=
    count is_take (trace o) = 0 /\
    count is_line_signal (trace o) = 0 /\
    elves_waiting (final o) = elves_waiting s /\
    var (final o) num_elves_being_helped = var s num_elves_being_helped /\
    ~ In (stdout, "Santa: noticed that there are elves waiting! \n", None)
        (skipn (List.length (console s)) (console (final o))) in
  let o := run SleepGate.santa_awake s in
  let o' := run (Trunk.santa i) s in
  (status o = Blocked (SemWait santa_busy_mutex) /\ sleigh o /\ no_help o) /\
  (status o' = Blocked (SemWait christmas_mutex) /\ sleigh o' /\ no_help o').
Proof.
  intros Hx Hr He Hb Hc sleigh no_help o o'.
  subst sleigh no_help o o'. cbv beta.
  apply Z.leb_le in Hr.
  split.
  - name_run o Ho. step Ho. rewrite Hr in Ho. steps Ho. subst o.
    cbn [final trace status]. cbn.
    rewrite skipn_app, skipn_all, Nat.sub_diag. cbn.
    repeat split; try reflexivity; try lia.
    + apply in_or_app. right. left. reflexivity.
    + intros [H | []]. discriminate H.
  - name_run o Ho. do 6 step Ho. rewrite Hr in Ho. steps Ho. subst o.
    cbn [final trace status]. cbn.
    rewrite <- !app_assoc, skipn_app, skipn_all, Nat.sub_diag. cbn.
    repeat split; try reflexivity; try lia.
    + apply in_or_app. right. right. left. reflexivity.
    + intros [H | [H | []]]; discriminate H.
Qed.

(** The theorem with ten reindeer back and three elves in line. *)
Lemma santa_prefers_the_sleigh_witness :
  let s := gathered started [4; 7; 2] 10 in
  status (run SleepGate.santa_awake s) = Blocked (SemWait santa_busy_mutex) /\
  count is_take (trace (run SleepGate.santa_awake s)) = 0.
Proof.
  cbv zeta.
  destruct (@santa_prefers_the_sleigh (gathered started [4; 7; 2] 10) 0)
    as ((Hst & _ & Hno & _) & _); try (vm_compute; congruence).
  split; [exact Hst | exact Hno].
Defined.

(** ** A service window *)



(** ** A batch *)






(** ** Start-up *)


(** A loop whose first action blocks is blocked there. *)
Lemma for_loop_first_blocks (n : nat) (i : Z) (e : Z -> Event) (s : Shared)
    (tr : list (Event * Z)) :
  (0 < n)%nat ->
  exit_status s = None ->
  perform (e i) s = Blocks ->
  run_from (for_loop n i (fun j => do (e j))) s tr
  = mkOutcome s tr (Blocked (e i)).
Proof.
  intros Hn Hx Hp. destruct n as [| n]; [lia |].
  cbn. rewrite Hx, Hp. reflexivity.
Qed.





(** ** Locks *)

(** Unfold a discipline over a program, whatever its actions answer. *)
Ltac discipline :=
  repeat (cbn;
    match goal with
    | |- forall _, _ => intro
    | |- _ /\ _ => split
    | |- True => exact I
    | |- _ = _ => reflexivity
    | H : False |- _ => destruct H
    | H : _ \/ _ |- _ => destruct H
    | H : ?a = ?b |- _ => subst b
    | |- context [if ?c then _ else _] => destruct c
    | |- context [Pos.to_nat ?p] =>
        let n := eval vm_compute in (Pos.to_nat p) in
        change (Pos.to_nat p) with n
    | |- context [SleepGate.assert _] => unfold SleepGate.assert
    end).

Lemma elf_discipline (id : Z) :
  never_blocks_holding guard_lock [] (SleepGate.elf id).
Proof. unfold SleepGate.elf. discipline. Qed.

Lemma reindeer_discipline (id : Z) :
  never_blocks_holding guard_lock [] (SleepGate.reindeer id).
Proof. unfold SleepGate.reindeer. discipline. Qed.

Lemma santa_discipline :
  never_blocks_holding data_guard [] SleepGate.santa_entry /\
  never_blocks_holding data_guard [] SleepGate.santa.
Proof. split; discipline. Qed.

(** Santa waits for [elf_counter_lock] while he holds [santa_busy_mutex]. *)
Lemma santa_nests : ~ never_blocks_holding guard_lock [] SleepGate.santa.
Proof.
  intro H. cbn in H.
  destruct H as [_ H]. specialize (H 0). cbn in H.
  specialize (H 0). cbn in H. specialize (H 0). cbn in H.
  destruct H as [_ H]. specialize (H 0). cbn in H. specialize (H 0). cbn in H.
  specialize (H 0). cbn in H. specialize (H 3). cbn in H.
  specialize (H 0). cbn in H.
  destruct H as [_ H]. specialize (H 0). cbn in H.
  destruct H as [H _]. specialize (H santa_busy_mutex (or_introl eq_refl)).
  discriminate H.
Qed.

(** In [trunk/main.c] the elf waits for its own semaphore inside the section
    guarded by [elf_mutex]. *)
Lemma trunk_elf_blocks_in_section (id : Z) :
  ~ never_blocks_holding guard_lock [] (Trunk.elf id).
Proof.
  intro H. cbn in H.
  do 4 (specialize (H 0); cbn in H).
  destruct H as [_ H]. specialize (H 0). cbn in H.
  destruct H as [_ H]. do 3 (specialize (H 0); cbn in H).
  destruct H as [H _]. specialize (H elf_mutex (or_introl eq_refl)).
  discriminate H.
Qed.

(** C2, as the code has it: no elf and no reindeer ever starts a wait while
    it holds one of the four guards, so an elf has released [elf_mutex]
    when it blocks on its own semaphore; Santa never starts a wait while he
    holds one of the three locks that guard data, but he does wait for
    [elf_counter_lock] while he holds [santa_busy_mutex]. *)
Theorem only_santa_nests_locks :
  (forall id, never_blocks_holding guard_lock [] (SleepGate.elf id)) /\
  (forall id, never_blocks_holding guard_lock [] (SleepGate.reindeer id)) /\
  never_blocks_holding data_guard [] SleepGate.santa_entry /\
  never_blocks_holding data_guard [] SleepGate.santa /\
  ~ never_blocks_holding guard_lock [] SleepGate.santa.
Proof.
  split; [exact elf_discipline |].
  split; [exact reindeer_discipline |].
  split; [exact (proj1 santa_discipline) |].
  split; [exact (proj2 santa_discipline) | exact santa_nests].
Qed.

(** C2 fails as stated: the discipline does not hold with
    [santa_busy_mutex] among the guards.  In the run [second_service] Santa
    has taken [santa_busy_mutex] and is blocked in his wait for
    [elf_counter_lock], which elf 2 still holds. *)
Lemma santa_waits_holding_busy_mutex :
  ~ lock_discipline guard_lock /\
  option_map
    (fun m => (blocked SleepGate.spawn santa_tid m,
               next_action santa_tid m,
               sem (shared m) santa_busy_mutex,
               sem (shared m) elf_counter_lock,
               next_action (elf_tid 2) m))
    second_service
  = Some (true, Some (SemWait elf_counter_lock), 0, 0,
          Some (SemSignal elf_counter_lock)).
Proof.
  split.
  - intros (_ & _ & _ & H). exact (santa_nests H).
  - vm_compute. reflexivity.
Qed.

(** ** Who wakes Santa *)

(** The elf signals [santa_sleep_mutex] inside the section guarded by
    [elf_mutex]; the reindeer signals it after it has left the section
    guarded by [reindeer_counter_lock]. *)
Lemma trigger_and_lock (id : Z) :
  raises_only_under elf_mutex santa_sleep_mutex false (SleepGate.elf id) /\
  ~ raises_only_under reindeer_counter_lock santa_sleep_mutex false
      (SleepGate.reindeer id).
Proof.
  split.
  - unfold SleepGate.elf.
    repeat (cbn;
      match goal with
      | |- forall _, _ => intro
      | |- _ /\ _ => split
      | |- True => exact I
      | |- _ = _ => reflexivity
      | |- context [if ?c then _ else _] => destruct c
      | |- context [Pos.to_nat ?p] =>
          let n := eval vm_compute in (Pos.to_nat p) in
          change (Pos.to_nat p) with n
      end).
  - intro H. cbn in H.
    do 6 (specialize (H 0); cbn in H).
    destruct H as [_ H]. specialize (H 0). cbn in H.
    specialize (H 0). cbn in H. specialize (H 10). cbn in H.
    specialize (H 0). cbn in H.
    destruct H as [H _]. discriminate H.
Qed.

(** C4, on the reindeer: all ten reindeer come back, and reindeer 8 and 9
    compare the counter with [NUM_REINDEER] only after both increments:
    both find 10, both announce that they are the last one, and
    [santa_sleep_mutex] is signalled twice for the one crossing. *)
Theorem two_reindeer_wake_santa :
  option_map
    (fun m => (var (shared m) num_reindeer_waiting,
               sem (shared m) santa_sleep_mutex,
               printed "Reindeer %d: I'm the last one; I'll get santa!\n"
                 (shared m),
               next_action (reindeer_tid 8) m,
               next_action (reindeer_tid 9) m))
    (run_schedule SleepGate.spawn late_checks
       (SleepGate.boot (fun _ => 1) true))
  = Some (10, 2, [Some 8; Some 9],
          Some (SemWait reindeer_counting_sem),
          Some (SemWait reindeer_counting_sem)).
Proof. vm_compute. reflexivity. Qed.

(** ** A whole run *)

(** The version with the sleep gate, from process start to the exit: three
    elves are served and given back their three admissions, the ten reindeer
    are hitched, nine reindeer threads return and the tenth exits with
    [EXIT_SUCCESS] once the counter is back to 0. *)
Lemma a_christmas_run :
  let m := bursts SleepGate.spawn 200 christmas
             (SleepGate.boot (fun _ => 1) true) in
  exit_status (shared m) = Some EXIT_SUCCESS /\
  var (shared m) num_reindeer_waiting = 0 /\
  sem (shared m) reindeer_counting_sem = 0 /\
  printed "Elf %d got santa's help! \n" (shared m)
    = [Some 0; Some 1; Some 2] /\
  printed "Reindeer %d is getting hitched to the sleigh! \n" (shared m)
    = map (fun id => Some (Z.of_nat id)) (seq 0 10) /\
  terminated (shared m) = [10; 11; 12; 13; 14; 15; 16; 17; 18] /\
  released (shared m)
    = [semaphores sem_set; semaphores elf_line_set; waiting_set].
Proof. vm_compute. repeat split; reflexivity. Qed.

Unset Implicit Arguments.

(** * More of the code *)

(** ** The assertion in [santa] *)

(** X5: Santa counts its launches and asserts that the count is 1.  On the
    first launch the thread goes on to its loop and nothing is printed or
    freed.  On any later launch the assertion message goes to [stderr] and
    the process exits with [EXIT_FAILURE], the at-exit handler freeing the
    resources if it is registered and has not run yet. *)
Theorem santa_is_launched_once (s : Shared) :
  exit_status s = None ->
  0 <= var s num_launched < INT_MAX ->
  let o := run SleepGate.santa_entry s in
  var (final o) num_launched = var s num_launched + 1 /\
  (var s num_launched = 0 ->
     status o = Finished tt /\
     exit_status (final o) = None /\
     console (final o) = console s /\
     released (final o) = released s) /\
  (0 < var s num_launched ->
     exit_status (final o) = Some EXIT_FAILURE /\
     console (final o)
       = console s
         ++ (stderr, "Assertion '%s' failed in file %s on line %d.\n", None)
         :: (if atexit_registered s
             then if var s resources_freed =? 0
                  then [(stdout,
                         "\n... And that year was a Merry Christmas indeed!\n\n",
                         None)]
                  else []
             else []) /\
     released (final o) = released s ++ released_at_exit s).
Proof.
  intros Hx Hn o. subst o. unfold INT_MAX in Hn.
  name_run o Ho. do 2 step Ho.
  rewrite (@int_small (var s num_launched + 1)) in Ho by lia.
  unfold SleepGate.assert in Ho.
  branch (1 =? var s num_launched + 1) E Ho;
    [apply Z.eqb_eq in E | apply Z.eqb_neq in E].
  - steps Ho. subst o. cbn.
    split; [reflexivity |]. split; intro H0; [| lia].
    repeat split; try reflexivity; assumption.
  - do 2 step Ho. unfold released_at_exit.
    branch (atexit_registered s) Ea Ho.
    + step Ho. branch (var s resources_freed =? 0) Ef Ho;
        steps Ho; subst o; cbn; rewrite ?app_nil_r;
        (split; [reflexivity |]); (split; intro H0; [lia |]);
        repeat split; try reflexivity;
        rewrite <- ?app_assoc; reflexivity.
    + steps Ho. subst o. cbn. rewrite ?app_nil_r.
      split; [reflexivity |]. split; intro H0; [lia |].
      repeat split; reflexivity.
Qed.

(** The theorem for a second Santa started in the state [main] has set
    up. *)
Lemma santa_is_launched_once_witness :
  let s := set_var started (upd_var (var started) num_launched 1) in
  let o := run SleepGate.santa_entry s in
  exit_status (final o) = Some EXIT_FAILURE /\
  released (final o) = teardown.
Proof.
  cbv zeta.
  destruct (santa_is_launched_once
              (set_var started (upd_var (var started) num_launched 1)))
    as (_ & _ & H).
  - reflexivity.
  - vm_compute. split; [discriminate | reflexivity].
  - destruct H as (H1 & _ & H3); [vm_compute; reflexivity |].
    split; [exact H1 | rewrite H3; vm_compute; reflexivity].
Defined.

(** ** Interruption *)

(** X6: the handler of SIGINT ends the process with [EXIT_SUCCESS].  The
    resources are released by the at-exit handler, once: all three if the
    handler is registered and has not run, none otherwise.  No semaphore
    changes and the waiting set keeps its members.  The handler of
    [trunk/main.c] releases the same. *)
Theorem sigint_frees_once (s : Shared) :
  exit_status s = None ->
  let o := run SleepGate.sigint_handler s in
  exit_status (final o) = Some EXIT_SUCCESS /\
  released (final o) = released s ++ released_at_exit s /\
  count is_release (trace o)
    = Z.of_nat (List.length (released_at_exit s)) /\
  sem (final o) = sem s /\
  elves_waiting (final o) = elves_waiting s /\
  released (final (run Trunk.sigint_handler s))
    = released s ++ released_at_exit s.
Proof.
  intros Hx o. subst o. unfold released_at_exit.
  assert (Ht : released (final (run Trunk.sigint_handler s))
               = released s
                 ++ (if atexit_registered s
                     then if var s resources_freed =? 0 then teardown else []
                     else [])).
  { name_run o Ho. step Ho.
    branch (atexit_registered s) Ea Ho.
    - step Ho. branch (var s resources_freed =? 0) Ef Ho;
        steps Ho; subst o; cbn; rewrite ?app_nil_r, <- ?app_assoc;
        reflexivity.
    - steps Ho. subst o. cbn. rewrite ?app_nil_r. reflexivity. }
  rewrite Ht. clear Ht.
  name_run o Ho. step Ho.
  branch (atexit_registered s) Ea Ho.
  - step Ho. branch (var s resources_freed =? 0) Ef Ho;
      steps Ho; subst o;
      cbn; rewrite ?app_nil_r, <- ?app_assoc;
      repeat split; reflexivity.
  - steps Ho. subst o.
    cbn. rewrite ?app_nil_r. repeat split; reflexivity.
Qed.

(** The theorem in the state [main] has set up. *)
Lemma sigint_frees_once_witness :
  released (final (run SleepGate.sigint_handler started)) = teardown.
Proof.
  destruct (sigint_frees_once started) as (_ & H & _);
    [reflexivity | rewrite H; vm_compute; reflexivity].
Defined.

(** ** A wake with nothing to do *)

(** X7: a pass of Santa's loop that finds fewer than [NUM_REINDEER] reindeer
    back and fewer than three elves in line helps nobody: no variable
    changes, the set keeps its members and neither an elf nor the reindeer
    are signalled.  Without a credit on [santa_sleep_mutex] Santa blocks
    there with every semaphore as he found it, [santa_busy_mutex]
    included; with one he consumes it and ends the pass.  The test on the
    set is against the literal 3, whatever [NUM_ELVES_PER_GROUP] is. *)
Theorem santa_wakes_for_nothing (cfg : Config) (s : Shared) :
  exit_status s = None ->
  0 < sem s santa_busy_mutex ->
  var s num_reindeer_waiting < NUM_REINDEER ->
  (List.length (elves_waiting s) < 3)%nat ->
  let o := run (@SleepGate.santa cfg) s in
  var (final o) = var s /\
  elves_waiting (final o) = elves_waiting s /\
  count is_line_signal (trace o) = 0 /\
  count (is_signal_of reindeer_counting_sem) (trace o) = 0 /\
  (sem s santa_sleep_mutex <= 0 ->
     status o = Blocked (SemWait santa_sleep_mutex) /\
     forall g, sem (final o) g = sem s g) /\
  (0 < sem s santa_sleep_mutex ->
     status o = Finished tt /\
     forall g, sem (final o) g
               = if Gate_eq_dec g santa_sleep_mutex
                 then sem s g - 1 else sem s g).
Proof.
  intros Hx Hb Hr He o. subst o.
  name_run o Ho. do 3 step Ho.
  destruct (Z_le_gt_dec (sem s santa_sleep_mutex) 0) as [Hs | Hs].
  - steps Ho. subst o. cbn.
    do 4 (split; [reflexivity |]). split; intro H; [| lia].
    split; [reflexivity |]. intro g. unfold upd_gate.
    repeat destruct (Gate_eq_dec _ _); subst; try congruence; lia.
  - assert (Hs' : 0 < sem s santa_sleep_mutex) by lia.
    do 3 step Ho.
    assert (E1 : (NUM_REINDEER <=? var s num_reindeer_waiting) = false)
      by (apply Z.leb_gt; exact Hr).
    rewrite E1 in Ho. step Ho.
    assert (E2 : (3 <=? Z.of_nat (List.length (elves_waiting s))) = false)
      by (apply Z.leb_gt; lia).
    rewrite E2 in Ho. steps Ho. subst o. cbn.
    do 4 (split; [reflexivity |]). split; intro H; [lia |].
    split; [reflexivity |]. intro g. unfold upd_gate.
    repeat destruct (Gate_eq_dec _ _); subst; try congruence; lia.
Qed.

(** The theorem in a build with groups of two: the second elf to get in
    line wakes Santa, who ends his pass with both elves still in line. *)
Lemma santa_wakes_for_nothing_witness :
  let s :=
    final (run (@SleepGate.elf_in_line pairs 0 ;;
                @SleepGate.elf_in_line pairs 1)
             (final (run (@SleepGate.main pairs) (fresh (fun _ => 1) true))))
  in
  sem s santa_sleep_mutex = 1 /\
  status (run (@SleepGate.santa pairs) s) = Finished tt /\
  elves_waiting (final (run (@SleepGate.santa pairs) s)) = [0; 1].
Proof.
  cbv zeta.
  destruct (santa_wakes_for_nothing pairs
              (final (run (@SleepGate.elf_in_line pairs 0 ;;
                           @SleepGate.elf_in_line pairs 1)
                        (final (run (@SleepGate.main pairs)
                                  (fresh (fun _ => 1) true))))))
    as (_ & H2 & _ & _ & _ & H6).
  - reflexivity.
  - vm_compute. reflexivity.
  - vm_compute. reflexivity.
  - vm_compute. lia.
  - split; [vm_compute; reflexivity |].
    split; [apply H6; vm_compute; reflexivity |].
    rewrite H2. vm_compute. reflexivity.
Defined.

(** ** Admission *)

(** An elf that finds no credit on [elf_counting_sem] blocks there. *)
Lemma line_up_blocked (id : Z) (rest : list Z) (s : Shared)
    (tr : list (Event * Z)) :
  exit_status s = None ->
  sem s elf_counting_sem <= 0 ->
  run_from (line_up (id :: rest)) s tr
  = mkOutcome s tr (Blocked (SemWait elf_counting_sem)).
Proof.
  intros Hx Hc.
  remember (run_from (line_up (id :: rest)) s tr) as o eqn:Ho.
  step Ho. exact Ho.
Qed.

Lemma line_up_run (ids : list Z) :
  forall (s : Shared) (tr : list (Event * Z)),
  exit_status s = None ->
  0 <= sem s elf_counting_sem ->
  0 < sem s elf_mutex ->
  let o := run_from (line_up ids) s tr in
  let admitted :=
    Nat.min (List.length ids) (Z.to_nat (sem s elf_counting_sem)) in
  elves_waiting (final o) = elves_waiting s ++ firstn admitted ids /\
  sem (final o) elf_counting_sem
    = sem s elf_counting_sem - Z.of_nat admitted /\
  status o = (if (List.length ids <=? Z.to_nat (sem s elf_counting_sem))%nat
              then Finished tt
              else Blocked (SemWait elf_counting_sem)).
Proof.
  induction ids as [| id rest IH]; intros s tr Hx Hc Hm o admitted;
    subst o admitted.
  - cbn. rewrite app_nil_r. repeat split; lia.
  - destruct (Z.eq_dec (sem s elf_counting_sem) 0) as [E | E].
    + rewrite line_up_blocked by (assumption || lia).
      rewrite E. cbn. rewrite app_nil_r. repeat split; lia.
    + assert (Hpos : 0 < sem s elf_counting_sem) by lia.
      rewrite line_up_cons by assumption.
      destruct (@elf_in_line_run id s tr Hx Hpos Hm)
        as (_ & Hx1 & Hw1 & _ & Hc1 & Hm1 & _).
      remember (run_from (SleepGate.elf_in_line id) s tr) as o1.
      destruct (IH (final o1) (trace o1) Hx1 ltac:(lia) ltac:(lia))
        as (I1 & I2 & I3).
      rewrite I1, I2, I3, Hw1, Hc1.
      replace (Z.to_nat (sem s elf_counting_sem))
        with (S (Z.to_nat (sem s elf_counting_sem - 1))) by lia.
      cbn [List.length Nat.min firstn Nat.leb].
      rewrite <- app_assoc. cbn [app].
      repeat split; try reflexivity. lia.
Qed.

(** X8: of the elves that come to get in line one after the other, as many
    enter the waiting set as [elf_counting_sem] has credits, in the order
    they came, each taking one credit; the next one blocks on
    [elf_counting_sem] and the set is left as the admitted ones made it. *)
Theorem admission_is_bounded (ids : list Z) (s : Shared) :
  exit_status s = None ->
  0 <= sem s elf_counting_sem ->
  0 < sem s elf_mutex ->
  let o := run (line_up ids) s in
  let credits := Z.to_nat (sem s elf_counting_sem) in
  elves_waiting (final o) = elves_waiting s ++ firstn credits ids /\
  sem (final o) elf_counting_sem
    = sem s elf_counting_sem
      - Z.of_nat (Nat.min (List.length ids) credits) /\
  ((List.length ids <= credits)%nat -> status o = Finished tt) /\
  ((credits < List.length ids)%nat ->
     status o = Blocked (SemWait elf_counting_sem)).
Proof.
  intros Hx Hc Hm o credits. subst o credits.
  destruct (line_up_run ids s [] Hx Hc Hm) as (H1 & H2 & H3).
  fold (run (line_up ids) s) in H1, H2, H3.
  split; [| split; [exact H2 |]].
  - rewrite H1. f_equal.
    destruct (Nat.le_ge_cases (List.length ids)
                (Z.to_nat (sem s elf_counting_sem))) as [L | L].
    + rewrite Nat.min_l by exact L.
      rewrite !firstn_all2 by lia. reflexivity.
    + rewrite Nat.min_r by exact L. reflexivity.
  - rewrite H3. split; intro L.
    + apply Nat.leb_le in L. rewrite L. reflexivity.
    + apply Nat.leb_gt in L. rewrite L. reflexivity.
Qed.

(** The theorem in the state [main] has set up: of four elves the first
    three get in line and the fourth waits to be admitted. *)
Lemma admission_is_bounded_witness :
  let o := run (line_up [0; 1; 2; 3]) started in
  elves_waiting (final o) = [0; 1; 2] /\
  status o = Blocked (SemWait elf_counting_sem).
Proof.
  cbv zeta.
  destruct (admission_is_bounded [0; 1; 2; 3] started)
    as (H1 & _ & _ & H4).
  - reflexivity.
  - vm_compute. discriminate.
  - vm_compute. reflexivity.
  - split; [rewrite H1; vm_compute; reflexivity |].
    apply H4. vm_compute. lia.
Defined.

(** ** The line in [trunk/main.c] *)

(** X9: in [trunk/main.c] the elf waits for Santa inside the section
    guarded by [elf_mutex]: once an elf is in line it holds [elf_mutex]
    while it is blocked on its own semaphore, and the next elf blocks
    before it can insert itself, on [elf_mutex] or already on
    [elf_counting_sem]. *)
Theorem trunk_elf_locks_the_line (a b : Z) (s : Shared) :
  exit_status s = None ->
  0 < sem s elf_counting_sem ->
  sem s elf_mutex = 1 ->
  sem s (slot elf_line_set a) <= 0 ->
  let o := run (Trunk.elf a) s in
  let next := run (Trunk.elf b) (final o) in
  status o = Blocked (SemWait (slot elf_line_set a)) /\
  elves_waiting (final o) = elves_waiting s ++ [a] /\
  sem (final o) elf_mutex = 0 /\
  elves_waiting (final next) = elves_waiting s ++ [a] /\
  (status next = Blocked (SemWait elf_mutex) \/
   status next = Blocked (SemWait elf_counting_sem)).
Proof.
  intros Hx Hc Hm Hs o next. subst next o.
  name_run o Ho. steps Ho. subst o. cbn [final status].
  split; [reflexivity |]. split; [reflexivity |].
  split; [cbn; lia |].
  name_run o Ho. do 4 step Ho.
  destruct (Z_le_gt_dec (sem s elf_counting_sem - 1) 0) as [Hn | Hn].
  - steps Ho. subst o. cbn. split; [reflexivity | right; reflexivity].
  - assert (Hn' : 0 < sem s elf_counting_sem - 1) by lia.
    steps Ho. subst o. cbn. split; [reflexivity | left; reflexivity].
Qed.

(** The theorem in the state [main] of [trunk/main.c] has set up. *)
Lemma trunk_elf_locks_the_line_witness :
  let o := run (Trunk.elf 0) trunk_started in
  let next := run (Trunk.elf 1) (final o) in
  elves_waiting (final next) = [0] /\
  status next = Blocked (SemWait elf_mutex).
Proof.
  cbv zeta.
  destruct (trunk_elf_locks_the_line 0 1 trunk_started)
    as (_ & _ & _ & H4 & _).
  - reflexivity.
  - vm_compute. reflexivity.
  - vm_compute. reflexivity.
  - vm_compute. discriminate.
  - split; [rewrite H4; vm_compute; reflexivity |].
    vm_compute. reflexivity.
Defined.

(** ** The reindeer come back *)

(** A reindeer comes back: the counter goes up by one under its lock, and
    the reindeer signals [santa_sleep_mutex] if it then reads
    [NUM_REINDEER] or more. *)
Lemma reindeer_back_run (id : Z) (s : Shared) (tr : list (Event * Z)) :
  exit_status s = None ->
  0 < sem s reindeer_counter_lock ->
  0 <= var s num_reindeer_waiting < NUM_REINDEER ->
  let wakes :=
    if NUM_REINDEER <=? var s num_reindeer_waiting + 1 then 1 else 0 in
  let o := run_from (SleepGate.reindeer_back id) s tr in
  status o = Finished tt /\
  exit_status (final o) = None /\
  var (final o) num_reindeer_waiting = var s num_reindeer_waiting + 1 /\
  sem (final o) reindeer_counter_lock = sem s reindeer_counter_lock /\
  sem (final o) santa_sleep_mutex = sem s santa_sleep_mutex + wakes /\
  count (is_signal_of santa_sleep_mutex) (trace o)
    = count (is_signal_of santa_sleep_mutex) tr + wakes.
Proof.
  intros Hx Hl Hn wakes o. subst o wakes. cbn in Hn.
  remember (run_from (SleepGate.reindeer_back id) s tr) as o eqn:Ho.
  do 5 step Ho.
  rewrite (@int_small (var s num_reindeer_waiting + 1)) in Ho by lia.
  do 4 step Ho.
  branch (NUM_REINDEER <=? var s num_reindeer_waiting + 1) E Ho;
    steps Ho; subst o; cbn; rewrite ?count_app; cbn;
    repeat split; try reflexivity; try assumption; lia.
Qed.

Lemma come_back_run (ids : list Z) :
  forall (s : Shared) (tr : list (Event * Z)),
  exit_status s = None ->
  0 < sem s reindeer_counter_lock ->
  0 <= var s num_reindeer_waiting ->
  var s num_reindeer_waiting + Z.of_nat (List.length ids) <= NUM_REINDEER ->
  let wakes :=
    if (0 <? Z.of_nat (List.length ids))
       && (NUM_REINDEER
           =? var s num_reindeer_waiting + Z.of_nat (List.length ids))
    then 1 else 0 in
  let o := run_from (come_back ids) s tr in
  status o = Finished tt /\
  var (final o) num_reindeer_waiting
    = var s num_reindeer_waiting + Z.of_nat (List.length ids) /\
  sem (final o) santa_sleep_mutex = sem s santa_sleep_mutex + wakes /\
  count (is_signal_of santa_sleep_mutex) (trace o)
    = count (is_signal_of santa_sleep_mutex) tr + wakes.
Proof.
  induction ids as [| id rest IH]; intros s tr Hx Hl H0 Hn wakes o;
    subst o wakes.
  - cbn. repeat split; lia.
  - cbn [List.length] in *. rewrite Nat2Z.inj_succ in *.
    cbn [come_back]. rewrite run_from_bind. cbv zeta.
    destruct (reindeer_back_run id s tr Hx Hl ltac:(lia))
      as (R1 & R2 & R3 & R4 & R5 & R6).
    remember (run_from (SleepGate.reindeer_back id) s tr) as o1.
    rewrite R1. cbv iota.
    destruct (IH (final o1) (trace o1) R2 ltac:(lia) ltac:(lia) ltac:(lia))
      as (I1 & I2 & I3 & I4).
    rewrite I1, I2, I3, I4, R3, R5, R6.
    split; [reflexivity |]. split; [lia |].
    assert (W :
      (if NUM_REINDEER <=? var s num_reindeer_waiting + 1 then 1 else 0)
      + (if (0 <? Z.of_nat (List.length rest))
            && (NUM_REINDEER
                =? var s num_reindeer_waiting + 1
                   + Z.of_nat (List.length rest))
         then 1 else 0)
      = (if (0 <? Z.succ (Z.of_nat (List.length rest)))
            && (NUM_REINDEER
                =? var s num_reindeer_waiting
                   + Z.succ (Z.of_nat (List.length rest)))
         then 1 else 0)).
    { destruct (Z.leb_spec NUM_REINDEER (var s num_reindeer_waiting + 1));
      destruct (Z.ltb_spec 0 (Z.of_nat (List.length rest)));
      destruct (Z.ltb_spec 0 (Z.succ (Z.of_nat (List.length rest))));
      destruct (Z.eqb_spec NUM_REINDEER
                  (var s num_reindeer_waiting + 1
                   + Z.of_nat (List.length rest)));
      destruct (Z.eqb_spec NUM_REINDEER
                  (var s num_reindeer_waiting
                   + Z.succ (Z.of_nat (List.length rest))));
      cbn [andb]; lia. }
    split; lia.
Qed.

(** X10: when reindeer come back one after the other, each finishing
    before the next starts, the counter goes up by one for each and
    [santa_sleep_mutex] is signalled once, by the reindeer that brings the
    counter to [NUM_REINDEER], and not at all while the counter stays
    below. *)
Theorem last_reindeer_back_wakes_santa (ids : list Z) (s : Shared) :
  exit_status s = None ->
  0 < sem s reindeer_counter_lock ->
  0 <= var s num_reindeer_waiting ->
  var s num_reindeer_waiting + Z.of_nat (List.length ids) <= NUM_REINDEER ->
  let o := run (come_back ids) s in
  let back := var s num_reindeer_waiting + Z.of_nat (List.length ids) in
  status o = Finished tt /\
  var (final o) num_reindeer_waiting = back /\
  (ids <> [] -> back = NUM_REINDEER ->
     count (is_signal_of santa_sleep_mutex) (trace o) = 1 /\
     sem (final o) santa_sleep_mutex = sem s santa_sleep_mutex + 1) /\
  (back < NUM_REINDEER ->
     count (is_signal_of santa_sleep_mutex) (trace o) = 0 /\
     sem (final o) santa_sleep_mutex = sem s santa_sleep_mutex).
Proof.
  intros Hx Hl H0 Hn o back. subst o back.
  destruct (come_back_run ids s [] Hx Hl H0 Hn) as (H1 & H2 & H3 & H4).
  fold (run (come_back ids) s) in H1, H2, H3, H4.
  change (count (is_signal_of santa_sleep_mutex) []) with 0 in H4.
  split; [exact H1 |]. split; [exact H2 |]. split.
  - intros Hne E. rewrite <- E, Z.eqb_refl in H3, H4.
    assert (L : (0 <? Z.of_nat (List.length ids)) = true).
    { apply Z.ltb_lt. destruct ids; [contradiction | cbn [List.length]; lia]. }
    rewrite L in H3, H4. cbn [andb] in H3, H4. split; lia.
  - intro Hlt.
    assert (N : (NUM_REINDEER
                 =? var s num_reindeer_waiting + Z.of_nat (List.length ids))
                = false) by (apply Z.eqb_neq; lia).
    rewrite N, andb_false_r in H3, H4. split; lia.
Qed.

(** The theorem in the state [main] has set up: nine reindeer back wake
    nobody, the tenth wakes Santa. *)
Lemma last_reindeer_back_wakes_santa_witness :
  count (is_signal_of santa_sleep_mutex)
    (trace (run (come_back [0; 1; 2; 3; 4; 5; 6; 7; 8]) started)) = 0 /\
  count (is_signal_of santa_sleep_mutex)
    (trace (run (come_back [0; 1; 2; 3; 4; 5; 6; 7; 8; 9]) started)) = 1.
Proof.
  split.
  - destruct (last_reindeer_back_wakes_santa
                [0; 1; 2; 3; 4; 5; 6; 7; 8] started)
      as (_ & _ & _ & H);
      [ reflexivity | vm_compute; reflexivity | vm_compute; discriminate
      | vm_compute; discriminate | ].
    apply H. vm_compute. reflexivity.
  - destruct (last_reindeer_back_wakes_santa
                [0; 1; 2; 3; 4; 5; 6; 7; 8; 9] started)
      as (_ & _ & H & _);
      [ reflexivity | vm_compute; reflexivity | vm_compute; discriminate
      | vm_compute; discriminate | ].
    apply H; [discriminate | vm_compute; reflexivity].
Defined.

(** ** The threads and their identifiers *)

Lemma run_creates_args (fn : ThreadFn) (args : Z -> Z) (n : nat) :
  forall (i : Z) (s : Shared) (tr : list (Event * Z)),
  exit_status s = None ->
  let o := run_from
             (for_loop n i (fun j => do (PthreadCreate fn (args j)))) s tr in
  status o = Finished tt /\
  exit_status (final o) = None /\
  terminated (final o) = terminated s /\
  created (final o)
    = created s ++ map (fun k => (fn, args (i + Z.of_nat k))) (seq 0 n).
Proof.
  induction n as [| n IH]; intros i s tr Hx o; subst o.
  - cbn. rewrite app_nil_r. repeat split; assumption.
  - remember (run_from (for_loop (S n) i
                 (fun j => do (PthreadCreate fn (args j)))) s tr) as o eqn:Ho.
    step Ho.
    match type of Ho with
    | _ = run_from _ ?s' ?tr' =>
        destruct (IH (i + 1) s' tr' Hx) as (I1 & I2 & I3 & I4)
    end.
    subst o. rewrite I1, I2, I3, I4. cbn [created terminated].
    rewrite <- app_assoc. cbn [app seq map].
    rewrite Z.add_0_r, <- seq_shift, map_map.
    repeat split; try reflexivity.
    do 2 f_equal. apply map_ext. intro k.
    do 2 f_equal. lia.
Qed.

Lemma NoDup_map_injective {A B : Type} (f : A -> B) (l : list A) :
  (forall x y, f x = f y -> x = y) -> NoDup l -> NoDup (map f l).
Proof.
  intros Hf H. induction H as [| x l Hx _ IH]; cbn; constructor; [| exact IH].
  intro Hin. apply in_map_iff in Hin. destruct Hin as (y & E & Hy).
  apply Hf in E. subst y. contradiction.
Qed.

(** X11: [launch_threads] creates Santa, then the elves with the
    identifiers 0 to [NUM_ELVES - 1], then the reindeer with the
    identifiers 0 to [NUM_REINDEER - 1], and then waits for Santa.  Every
    identifier is an index into the array [ids] of [MAX(NUM_ELVES,
    NUM_REINDEER)] entries, every elf identifier an index into the
    [NUM_ELVES] semaphores of [elf_line_set], and no two threads of a kind
    share an identifier. *)
Theorem every_thread_gets_its_own_id (cfg : Config) (s : Shared) :
  exit_status s = None ->
  terminated s = [] ->
  0 <= NUM_ELVES ->
  0 <= NUM_REINDEER ->
  let o := run (@SleepGate.launch_threads cfg) s in
  status o = Blocked (PthreadJoin 0) /\
  created (final o) = created s ++ roster cfg /\
  (forall arg, In (fn_elf, arg) (roster cfg) -> 0 <= arg < NUM_ELVES) /\
  (forall arg, In (fn_reindeer, arg) (roster cfg) ->
               0 <= arg < NUM_REINDEER) /\
  (forall fn arg, In (fn, arg) (roster cfg) ->
               fn = fn_santa \/ 0 <= arg < MAX NUM_ELVES NUM_REINDEER) /\
  NoDup (roster cfg).
Proof.
  intros Hx Ht HE HN o. subst o.
  assert (Hin : forall fn arg, In (fn, arg) (roster cfg) ->
            (fn = fn_santa /\ arg = 0) \/
            (fn = fn_elf /\ 0 <= arg < NUM_ELVES) \/
            (fn = fn_reindeer /\ 0 <= arg < NUM_REINDEER)).
  { intros fn arg [H | H].
    - injection H as <- <-. left. split; reflexivity.
    - right. apply in_app_or in H. destruct H as [H | H];
        apply in_map_iff in H; destruct H as (k & H & Hk);
        injection H as <- <-; apply in_seq in Hk; [left | right];
        (split; [reflexivity | lia]). }
  assert (Hrun : status (run (@SleepGate.launch_threads cfg) s)
                 = Blocked (PthreadJoin 0) /\
                 created (final (run (@SleepGate.launch_threads cfg) s))
                 = created s ++ roster cfg).
  { name_run o Ho. step Ho.
    unfold SleepGate.sequence_pthreads, for_upto in Ho.
    rewrite run_from_bind in Ho. cbv zeta in Ho.
    match type of Ho with
    | context [run_from (for_loop ?n ?i ?body) ?s1 ?tr] =>
        destruct (run_creates_args fn_elf (fun z : Z => z) n i s1 tr Hx)
          as (I1 & I2 & I3 & I4);
        remember (run_from (for_loop n i body) s1 tr) as o1 eqn:E1; clear E1
    end.
    rewrite I1 in Ho. cbv iota beta in Ho.
    rewrite run_from_bind in Ho. cbv zeta in Ho.
    match type of Ho with
    | context [run_from (for_loop ?n ?i ?body) ?s1 ?tr] =>
        destruct (run_creates_args fn_reindeer (fun z : Z => z) n i s1 tr I2)
          as (J1 & J2 & J3 & J4);
        remember (run_from (for_loop n i body) s1 tr) as o2 eqn:E2; clear E2
    end.
    rewrite J1 in Ho. cbv iota beta in Ho.
    rewrite for_loop_first_blocks in Ho;
      [ | lia | exact J2
        | cbn; rewrite J3, I3; cbn; rewrite Ht; reflexivity ].
    subst o. cbn [status final]. split; [reflexivity |].
    rewrite J4, I4. cbn [created]. unfold roster.
    rewrite <- !app_assoc. reflexivity. }
  destruct Hrun as [R1 R2].
  split; [exact R1 |]. split; [exact R2 |].
  split; [| split; [| split]].
  - intros arg H. destruct (Hin _ _ H) as [[E _] | [[_ H1] | [E _]]];
      [discriminate E | exact H1 | discriminate E].
  - intros arg H. destruct (Hin _ _ H) as [[E _] | [[E _] | [_ H1]]];
      [discriminate E | discriminate E | exact H1].
  - intros fn arg H. unfold MAX.
    destruct (Hin _ _ H) as [[E _] | [[_ H1] | [_ H1]]];
      [left; exact E | right | right];
      destruct (Z.gtb_spec NUM_ELVES NUM_REINDEER); lia.
  - unfold roster. constructor.
    + intro H. apply in_app_or in H. destruct H as [H | H];
        apply in_map_iff in H; destruct H as (k & H & _); discriminate H.
    + apply NoDup_app.
      * apply NoDup_map_injective; [| apply seq_NoDup].
        intros x y E. injection E as E. lia.
      * apply NoDup_map_injective; [| apply seq_NoDup].
        intros x y E. injection E as E. lia.
      * intros a H1 H2. apply in_map_iff in H1, H2.
        destruct H1 as (k & <- & _). destruct H2 as (j & E & _).
        discriminate E.
Qed.

(** The theorem with the constants of the source, before any thread
    exists: twenty threads, elf 8 the last of the elves. *)
Lemma every_thread_gets_its_own_id_witness :
  let o := run (@SleepGate.launch_threads source_config)
             (fresh (fun _ => 1) true) in
  List.length (created (final o)) = 20%nat /\
  nth_error (created (final o)) 9 = Some (fn_elf, 8).
Proof.
  cbv zeta.
  destruct (every_thread_gets_its_own_id source_config
              (fresh (fun _ => 1) true)) as (_ & H & _);
    [reflexivity | reflexivity | vm_compute; discriminate
    | vm_compute; discriminate |].
  rewrite H. split; vm_compute; reflexivity.
Defined.

(** [get_value_and_increment] returns the counter and leaves it one
    higher; the other counter, the semaphores and the set are as before. *)
Lemma get_value_and_increment_run (counter : Var) (s : Shared)
    (tr : list (Event * Z)) :
  exit_status s = None ->
  0 < sem s id_counter_mutex ->
  - 2 ^ 31 <= var s counter < INT_MAX ->
  let o := run_from (Trunk.get_value_and_increment counter) s tr in
  status o = Finished (var s counter) /\
  exit_status (final o) = None /\
  var (final o) counter = var s counter + 1 /\
  (forall x, x <> counter -> var (final o) x = var s x) /\
  (forall g, sem (final o) g = sem s g) /\
  elves_waiting (final o) = elves_waiting s.
Proof.
  intros Hx Hl Hn o. subst o. unfold INT_MAX in Hn.
  remember (run_from (Trunk.get_value_and_increment counter) s tr) as o eqn:Ho.
  steps Ho. subst o. cbn.
  rewrite (@int_small (var s counter + 1)) by lia.
  unfold upd_var, upd_gate.
  repeat split; try reflexivity; try assumption.
  - destruct (Var_eq_dec counter counter); [reflexivity | congruence].
  - intros x Hne. destruct (Var_eq_dec x counter); [contradiction | reflexivity].
  - intro g. repeat destruct (Gate_eq_dec _ _); subst; try congruence; lia.
Qed.

(** X12: in [trunk/main.c] the threads of a kind take their identifiers
    from a shared counter under [id_counter_mutex]: [n] threads that take
    one after the other get the [n] consecutive values from the counter
    on, which are distinct; the counter ends [n] higher, the counter of the
    other kind is not touched and every semaphore is as before. *)
Theorem identifiers_are_consecutive (counter : Var) (n : nat) (s : Shared) :
  exit_status s = None ->
  0 < sem s id_counter_mutex ->
  - 2 ^ 31 <= var s counter ->
  var s counter + Z.of_nat n <= INT_MAX ->
  let o := run (take_ids counter n) s in
  status o
    = Finished (map (fun k => var s counter + Z.of_nat k) (seq 0 n)) /\
  var (final o) counter = var s counter + Z.of_nat n /\
  (forall x, x <> counter -> var (final o) x = var s x) /\
  (forall g, sem (final o) g = sem s g).
Proof.
  unfold run. generalize (@nil (Event * Z)). revert s.
  induction n as [| n IH]; intros s tr Hx Hl H0 Hn.
  - cbn. repeat split; try reflexivity. lia.
  - rewrite Nat2Z.inj_succ in Hn |- *.
    cbn [take_ids]. rewrite run_from_bind. cbv zeta.
    destruct (get_value_and_increment_run counter s tr Hx Hl ltac:(lia))
      as (G1 & G2 & G3 & G4 & G5 & _).
    remember (run_from (Trunk.get_value_and_increment counter) s tr) as o1.
    rewrite G1. cbv iota beta.
    rewrite run_from_bind. cbv zeta.
    destruct (IH (final o1) (trace o1) G2) as (I1 & I2 & I3 & I4);
      [rewrite G5; exact Hl | lia | lia |].
    rewrite I1. cbv iota beta. cbn [run_from status final].
    rewrite I2, G3. split; [| split; [| split]].
    + cbn [seq map]. rewrite Z.add_0_r. do 2 f_equal.
      rewrite <- seq_shift, map_map. apply map_ext. intro k. lia.
    + lia.
    + intros x Hne. rewrite I3, G4 by assumption. reflexivity.
    + intro g. rewrite I4, G5. reflexivity.
Qed.

(** The theorem for the nine elves of [trunk/main.c]. *)
Lemma identifiers_are_consecutive_witness :
  status (run (take_ids (atomic_counter fn_elf) 9) trunk_started)
  = Finished [0; 1; 2; 3; 4; 5; 6; 7; 8].
Proof.
  destruct (identifiers_are_consecutive (atomic_counter fn_elf) 9
              trunk_started) as (H & _);
    [ reflexivity | vm_compute; reflexivity | vm_compute; discriminate
    | vm_compute; discriminate | ].
  rewrite H. vm_compute. reflexivity.
Defined.


(** ** Interleavings *)

(** What a step of the machine is made of. *)
Lemma step_cases (spawn : ThreadFn -> Z -> Thread) (tid : nat)
    (m m' : Machine) :
  step spawn tid m = Some m' ->
  exists t,
    nth_error (pool m) tid = Some t /\
    exit_status (shared m) = None /\
    ((exists a b,
        residual t = Ret a /\ loop_body t = Some b /\
        shared m' = shared m /\
        pool m' = replace_nth tid (mkThread b (Some b)) (pool m)) \/
     (exists e k s' r,
        residual t = Act e k /\
        perform e (shared m) = Returns s' r /\
        pool m' = replace_nth tid (mkThread (k r) (loop_body t)) (pool m)
                  ++ born spawn e /\
        (shared m' = s' \/
         shared m' = set_terminated s' (terminated s' ++ [Z.of_nat tid - 1])))).
Proof.
  unfold step. intro H.
  destruct (exit_status (shared m)) eqn:Hx; [discriminate |].
  destruct (nth_error (pool m) tid) as [t |]; [| discriminate].
  exists t. split; [reflexivity |]. split; [reflexivity |].
  destruct (residual t) as [a | e k] eqn:Hr.
  - destruct (loop_body t) as [b |]; [| discriminate].
    injection H as <-. left. exists a, b. repeat split.
  - destruct (perform e (shared m)) as [s' r | |] eqn:Hp; try discriminate.
    injection H as <-. right. exists e, k, s', r. cbn [pool shared].
    split; [reflexivity |]. split; [exact Hp |]. split.
    + destruct e; reflexivity.
    + destruct (k r); [destruct (loop_body t) |]; auto.
Qed.

Lemma step_single (spawn : ThreadFn -> Z -> Thread) (tid : nat)
    (m m' : Machine) :
  List.length (pool m) = 1%nat -> step spawn tid m = Some m' -> tid = 0%nat.
Proof.
  unfold step. destruct (pool m) as [| t [| u l]]; try discriminate.
  intros _ H. destruct tid as [| tid]; [reflexivity |].
  destruct (exit_status (shared m)); [discriminate |].
  destruct tid; discriminate.
Qed.

Lemma run_schedule_app (spawn : ThreadFn -> Z -> Thread) (a b : list nat)
    (m : Machine) :
  run_schedule spawn (a ++ b) m =
  match run_schedule spawn a m with
  | Some m' => run_schedule spawn b m'
  | None => None
  end.
Proof.
  revert m. induction a as [| tid a IH]; intro m; cbn; [reflexivity |].
  destruct (step spawn tid m); [apply IH | reflexivity].
Qed.

Lemma run_schedule_split (spawn : ThreadFn -> Z -> Thread) (a b : list nat)
    (m m' : Machine) :
  run_schedule spawn (a ++ b) m = Some m' ->
  exists m1, run_schedule spawn a m = Some m1 /\
             run_schedule spawn b m1 = Some m'.
Proof.
  rewrite run_schedule_app.
  destruct (run_schedule spawn a m) as [m1 |]; [eauto | discriminate].
Qed.

Lemma option_cases {A : Type} (o : option A) :
  o = None \/ exists a, o = Some a.
Proof. destruct o; eauto. Qed.

Lemma Forall_replace_nth {A : Type} (P : A -> Prop) (l : list A) (n : nat)
    (x : A) :
  Forall P l -> P x -> Forall P (replace_nth n x l).
Proof.
  intros H Hx. revert n. induction H; intros [| n]; cbn; auto.
Qed.

Lemma Forall_nth_error {A : Type} (P : A -> Prop) (l : list A) (n : nat)
    (x : A) :
  Forall P l -> nth_error l n = Some x -> P x.
Proof.
  intros H Hn. apply nth_error_In in Hn. rewrite Forall_forall in H. auto.
Qed.

Lemma Forall2_replace_nth {A B : Type} (R : A -> B -> Prop)
    (l : list A) (l' : list B) (n : nat) (x : A) (y : B) :
  Forall2 R l l' -> R x y ->
  Forall2 R (replace_nth n x l) (replace_nth n y l').
Proof.
  intros H Hxy. revert n. induction H; intros [| n]; cbn; auto.
Qed.

Lemma Forall2_nth {A B : Type} (R : A -> B -> Prop)
    (l : list A) (l' : list B) (n : nat) (x : A) :
  Forall2 R l l' -> nth_error l n = Some x ->
  exists y, nth_error l' n = Some y /\ R x y.
Proof.
  intros H. revert n. induction H; intros [| n] Hn; cbn in *; try discriminate.
  - injection Hn as <-. eauto.
  - eauto.
Qed.

(** *** The first moves of [main] *)

Lemma early_S (spawn : ThreadFn -> Z -> Thread) (check : Machine -> bool)
    (n : nat) (m m1 : Machine) :
  early spawn check (S n) m = true ->
  step spawn 0%nat m = Some m1 ->
  early spawn check n m1 = true.
Proof.
  unfold early. intros H Hs.
  apply forallb_forall. intros j Hj.
  rewrite forallb_forall in H. specialize (H (S j)).
  cbn [repeat run_schedule] in H. rewrite Hs in H. apply H.
  apply in_seq. apply in_seq in Hj. lia.
Qed.

(** While thread 0 is alone, a schedule can only move thread 0. *)
Lemma early_prefix (spawn : ThreadFn -> Z -> Thread)
    (check : Machine -> bool) (n : nat) :
  forall (m : Machine) (sched : list nat) (m' : Machine),
    early spawn check n m = true ->
    run_schedule spawn sched m = Some m' ->
    (List.length (pool m') = 1%nat /\ check m' = true) \/
    exists rest, sched = repeat 0%nat n ++ rest.
Proof.
  induction n as [| n IH]; intros m sched m' Ha Hr.
  - right. exists sched. reflexivity.
  - assert (H0 : List.length (pool m) = 1%nat /\ check m = true).
    { unfold early in Ha. rewrite forallb_forall in Ha.
      specialize (Ha 0%nat). cbn in Ha.
      apply andb_true_iff in Ha; [| left; reflexivity].
      destruct Ha as [Ha1 Ha2]. split; [apply Nat.eqb_eq, Ha1 | exact Ha2]. }
    destruct sched as [| tid sched].
    + left. cbn in Hr. injection Hr as <-. exact H0.
    + cbn in Hr. destruct (step spawn tid m) as [m1 |] eqn:Hs; [| discriminate].
      pose proof (step_single spawn tid m m1 (proj1 H0) Hs) as ->.
      destruct (IH m1 sched m' (early_S spawn check n m m1 Ha Hs) Hr)
        as [H | [rest ->]].
      * left. exact H.
      * right. exists rest. reflexivity.
Qed.

(** After fifteen moves [main] has initialised everything and is about to
    create Santa. *)
Lemma launch_point (draws : nat -> Z) (m : Machine) :
  run_schedule SleepGate.spawn (repeat 0%nat 15) (SleepGate.boot draws true)
  = Some m ->
  at_launch m.
Proof.
  intro E.
  assert (F : option_map
                (fun m => (pool m, exit_status (shared m), errors (shared m),
                           santas (shared m), var (shared m) num_launched,
                           sem (shared m) elf_mutex,
                           sem (shared m) elf_counter_lock,
                           sem (shared m) reindeer_counter_lock))
                (run_schedule SleepGate.spawn (repeat 0%nat 15)
                   (SleepGate.boot draws true))
              = Some ([mkThread launch_and_exit None], None, [], 0, 0,
                      1, 1, 1))
    by (vm_compute; reflexivity).
  rewrite E in F. cbn [option_map] in F.
  injection F as F1 F2 F3 F4 F5 F6 F7 F8. repeat split; assumption.
Qed.

(** Every state a schedule reaches from process start is either one of the
    first states of [main], alone in the pool, or a state reached from the
    point where [main] starts creating threads. *)
Lemma from_boot (draws : nat -> Z) (check : Machine -> bool)
    (P : Machine -> Prop) :
  early SleepGate.spawn check 15 (SleepGate.boot draws true) = true ->
  (forall m, at_launch m -> P m) ->
  (forall tid m m', P m -> step SleepGate.spawn tid m = Some m' -> P m') ->
  forall sched m,
    run_schedule SleepGate.spawn sched (SleepGate.boot draws true) = Some m ->
    (List.length (pool m) = 1%nat /\ check m = true) \/ P m.
Proof.
  intros Hearly Hinit Hstep.
  assert (Hrun : forall sched m m', P m ->
            run_schedule SleepGate.spawn sched m = Some m' -> P m').
  { induction sched as [| tid rest IH]; intros m m' Hm Hr; cbn in Hr.
    - injection Hr as <-. exact Hm.
    - destruct (step SleepGate.spawn tid m) as [m1 |] eqn:Hs;
        [| discriminate].
      apply (IH m1); [eapply Hstep; eauto | exact Hr]. }
  intros sched m H.
  destruct (early_prefix SleepGate.spawn check 15 _ sched m Hearly H)
    as [H1 | [rest ->]]; [left; exact H1 |].
  right. apply run_schedule_split in H. destruct H as (m15 & E & H).
  exact (Hrun rest m15 m (Hinit m15 (launch_point draws m15 E)) H).
Qed.

(** *** Locks *)

Lemma holders_replace_same (flags : list bool) (n : nat) (b : bool) :
  nth_error flags n = Some b -> replace_nth n b flags = flags.
Proof.
  revert n. induction flags as [| c flags IH]; intros [| n] H; cbn in *;
    try discriminate; try congruence.
  f_equal. auto.
Qed.

Lemma holders_replace (flags : list bool) (n : nat) (b c : bool) :
  nth_error flags n = Some b ->
  holders (replace_nth n c flags)
  = holders flags - (if b then 1 else 0) + (if c then 1 else 0).
Proof.
  unfold holders.
  revert n. induction flags as [| d flags IH]; intros [| n] H; cbn in *;
    try discriminate.
  - injection H as ->. destruct b, c; cbn [List.length]; lia.
  - specialize (IH n H). destruct d; cbn [List.length]; lia.
Qed.

Lemma holders_app (a b : list bool) : holders (a ++ b) = holders a + holders b.
Proof. unfold holders. rewrite filter_app, length_app. lia. Qed.

(** What an action does to the semaphore [g]. *)
Lemma perform_sem (g : Gate) (e : Event) (s s' : Shared) (r : Z) :
  perform e s = Returns s' r ->
  match e with
  | SemWait h =>
      if Gate_eq_dec h g
      then 0 < sem s g /\ sem s' g = sem s g - 1
      else sem s' g = sem s g
  | SemSignal h =>
      if Gate_eq_dec h g then sem s' g = sem s g + 1 else sem s' g = sem s g
  | SemInit h _ => h <> g -> sem s' g = sem s g
  | SemInitAll t _ => (forall i, slot t i <> g) -> sem s' g = sem s g
  | _ => sem s' g = sem s g
  end.
Proof.
  destruct e; cbn; intro H;
    try (injection H as <- <-; reflexivity).
  - destruct (0 <? sem s g0) eqn:E; [| discriminate].
    injection H as <- <-. cbn. unfold upd_gate.
    destruct (Gate_eq_dec g0 g) as [-> | N].
    + destruct (Gate_eq_dec g g); [| congruence].
      split; [apply Z.ltb_lt; exact E | reflexivity].
    + destruct (Gate_eq_dec g g0); [congruence | reflexivity].
  - injection H as <- <-. cbn. unfold upd_gate.
    destruct (Gate_eq_dec g0 g) as [-> | N].
    + destruct (Gate_eq_dec g g); [reflexivity | congruence].
    + destruct (Gate_eq_dec g g0); [congruence | reflexivity].
  - injection H as <- <-. cbn. unfold upd_gate. intro N.
    destruct (Gate_eq_dec g g0); [congruence | reflexivity].
  - injection H as <- <-. cbn. intro N. destruct g; try reflexivity.
    destruct (SemSet_eq_dec s1 s0) as [-> | ]; [| reflexivity].
    destruct (N i). reflexivity.
  - destruct (elves_waiting s); [discriminate |].
    injection H as <- <-. reflexivity.
  - destruct (atexit_ok s); injection H as <- <-; reflexivity.
  - destruct (existsb _ _); [| discriminate]. injection H as <- <-.
    reflexivity.
Qed.

(** A step of the machine keeps the invariant of a lock, when every thread
    that is started uses the lock as one. *)
Lemma step_keeps_lock (spawn : ThreadFn -> Z -> Thread) (g : Gate)
    (touches : Event -> bool) (tid : nat) (m m' : Machine) :
  (forall fn arg, thread_guarded g touches false (spawn fn arg)) ->
  lock_invariant g touches m ->
  step spawn tid m = Some m' ->
  lock_invariant g touches m'.
Proof.
  intros spawn_guarded (flags & HF & H0 & H1) Hs.
  destruct (step_cases spawn tid m m' Hs) as (t & Ht & _ & Hcase).
  destruct (Forall2_nth _ _ _ tid t HF Ht) as (b & Hb & Hg & Hl).
  destruct Hcase as [(a & body & Hr & Hbody & Hsh & Hp)
                    | (e & k & s' & r & Hr & Hp & Hpool & Hsh)].
  - rewrite Hr in Hg. cbn in Hg. subst b. rewrite Hbody in Hl.
    exists flags. rewrite Hsh, Hp. split; [| split; assumption].
    rewrite <- (holders_replace_same flags tid false Hb).
    apply Forall2_replace_nth; [exact HF |].
    split; cbn; assumption.
  - pose proof (perform_sem g e (shared m) s' r Hp) as Hsem.
    assert (Hs'' : sem (shared m') g = sem s' g)
      by (destruct Hsh as [-> | ->]; reflexivity).
    assert (Hborn : forall (c : bool),
              guarded g touches c (k r) ->
              0 <= sem s' g ->
              sem s' g + (holders flags - (if b then 1 else 0)
                          + (if c then 1 else 0)) = 1 ->
              lock_invariant g touches m').
    { intros c Hc Hn Hsum.
      exists (replace_nth tid c flags
              ++ match e with
                 | PthreadCreate _ _ => [false]
                 | _ => []
                 end).
      rewrite Hs'', Hpool. split; [| split; [exact Hn |]].
      - apply Forall2_app.
        + apply Forall2_replace_nth; [exact HF |].
          split; cbn; assumption.
        + destruct e; try constructor; [apply spawn_guarded | constructor].
      - rewrite holders_app, (holders_replace flags tid b c Hb).
        replace (holders match e with
                         | PthreadCreate _ _ => [false]
                         | _ => []
                         end) with 0 by (destruct e; reflexivity).
        lia. }
    rewrite Hr in Hg. cbn in Hg.
    destruct e; cbn in Hg;
      try (destruct Hg as [_ Hg];
           apply (Hborn b (Hg r)); [lia | destruct b; lia]).
    + destruct (Gate_eq_dec g0 g) as [-> | N].
      * destruct Hg as [-> Hg]. destruct Hsem as [Hpos Hsem].
        apply (Hborn true (Hg r)); lia.
      * apply (Hborn b (Hg r)); [lia | destruct b; lia].
    + destruct (Gate_eq_dec g0 g) as [-> | N].
      * destruct Hg as [-> Hg].
        apply (Hborn false (Hg r)); lia.
      * apply (Hborn b (Hg r)); [lia | destruct b; lia].
    + destruct Hg as [N Hg]. specialize (Hsem N).
      apply (Hborn b (Hg r)); [lia | destruct b; lia].
    + destruct Hg as [N Hg]. specialize (Hsem N).
      apply (Hborn b (Hg r)); [lia | destruct b; lia].
Qed.

(** For a program that uses [g] as a lock, being inside is what [holds]
    computes. *)
Lemma guarded_holds {A : Type} (g : Gate) (touches : Event -> bool)
    (b : bool) (p : Prog A) :
  guarded g touches b p -> holds g p = b.
Proof.
  revert b. induction p as [a | e k IH]; intros b H; cbn in *.
  - congruence.
  - destruct e; cbn in *;
      try (destruct H as [_ H]; apply IH, H).
    + destruct (Gate_eq_dec g0 g); [symmetry; apply H | apply IH, H].
    + destruct (Gate_eq_dec g0 g); [symmetry; apply H | apply IH, H].
Qed.

Lemma guarded_about_to {A : Type} (g : Gate) (touches : Event -> bool)
    (b : bool) (e : Event) (k : Z -> Prog A) :
  (forall h, touches (SemWait h) = false) ->
  (forall h, touches (SemSignal h) = false) ->
  (forall h v, touches (SemInit h v) = false) ->
  (forall t v, touches (SemInitAll t v) = false) ->
  guarded g touches b (Act e k) -> touches e = true -> b = true.
Proof.
  intros H1 H2 H3 H4 H Ht.
  destruct e; cbn in H; try (apply H, Ht); congruence.
Qed.

Lemma lock_invariant_law (g : Gate) (touches : Event -> bool) (m : Machine) :
  (forall h, touches (SemWait h) = false) ->
  (forall h, touches (SemSignal h) = false) ->
  (forall h v, touches (SemInit h v) = false) ->
  (forall t v, touches (SemInitAll t v) = false) ->
  lock_invariant g touches m ->
  lock_law g touches m.
Proof.
  intros T1 T2 T3 T4 (flags & HF & H0 & H1).
  split; [exact H0 |].
  assert (Hc : inside_count g m = holders flags).
  { unfold inside_count, holders. f_equal. clear H1.
    induction HF as [| t b l l' [Ht _] _ IH]; [reflexivity |].
    cbn [filter]. rewrite (guarded_holds g touches b _ Ht).
    destruct b; cbn [List.length]; lia. }
  split; [rewrite Hc; exact H1 |].
  intros t Hin Ha.
  assert (Ht : exists b, thread_guarded g touches b t).
  { clear - HF Hin. induction HF as [| t' b l l' Ht' _ IH]; [destruct Hin |].
    destruct Hin as [<- | Hin]; eauto. }
  destruct Ht as (b & Hg & _). rewrite (guarded_holds g touches b _ Hg).
  unfold about_to in Ha. destruct (residual t) as [| e k]; [discriminate |].
  eapply guarded_about_to; eauto.
Qed.

(** Unfold the use of a lock over a program, whatever its actions
    answer. *)
Ltac guarding :=
  repeat (cbn;
    match goal with
    | |- forall _, _ => intro
    | |- _ /\ _ => split
    | |- True => exact I
    | |- _ = _ => reflexivity
    | H : false = true |- _ => discriminate H
    | |- context [if ?c then _ else _] => destruct c
    | |- context [Pos.to_nat ?p] =>
        let n := eval vm_compute in (Pos.to_nat p) in
        change (Pos.to_nat p) with n
    | |- context [SleepGate.assert _] => unfold SleepGate.assert
    end).

Lemma lock_law_from_boot (g : Gate) (touches : Event -> bool)
    (check : Machine -> bool) (draws : nat -> Z) (sched : list nat)
    (m : Machine) :
  (forall h, touches (SemWait h) = false) ->
  (forall h, touches (SemSignal h) = false) ->
  (forall h v, touches (SemInit h v) = false) ->
  (forall t v, touches (SemInitAll t v) = false) ->
  (forall fn arg, thread_guarded g touches false (SleepGate.spawn fn arg)) ->
  guarded g touches false launch_and_exit ->
  (forall m0, at_launch m0 -> sem (shared m0) g = 1) ->
  early SleepGate.spawn check 15 (SleepGate.boot draws true) = true ->
  run_schedule SleepGate.spawn sched (SleepGate.boot draws true) = Some m ->
  (List.length (pool m) = 1%nat /\ check m = true) \/ lock_law g touches m.
Proof.
  intros T1 T2 T3 T4 Hspawn Hmain Hsem Hearly Hrun.
  destruct (from_boot draws check (lock_invariant g touches) Hearly)
    with (sched := sched) (m := m) as [H | H]; [| | exact Hrun | | ].
  - intros m0 L. pose proof (Hsem m0 L) as S1. destruct L as (Hp & _).
    exists [false]. rewrite Hp. split; [| split].
    + constructor; [| constructor]. split; [exact Hmain | exact I].
    + lia.
    + rewrite S1. reflexivity.
  - intros tid m1 m2 Hi Hs.
    exact (step_keeps_lock SleepGate.spawn g touches tid m1 m2 Hspawn Hi Hs).
  - left. exact H.
  - right. exact (lock_invariant_law g touches m T1 T2 T3 T4 H).
Qed.

Lemma holder_counts (g : Gate) (m : Machine) (t : Thread) :
  In t (pool m) -> holds g (residual t) = true -> 1 <= inside_count g m.
Proof.
  intros Hin Hh. unfold inside_count.
  assert (In t (filter (fun t => holds g (residual t)) (pool m)))
    by (apply filter_In; split; assumption).
  destruct (filter (fun t => holds g (residual t)) (pool m));
    [contradiction | cbn [List.length]; lia].
Qed.

(** A thread that is about to touch the data is inside the section, the
    lock is taken and nobody else is inside. *)
Lemma owner_is_inside (g : Gate) (touches : Event -> bool) (m : Machine)
    (t : Thread) :
  (List.length (pool m) = 1%nat /\ nobody touches m = true) \/
  lock_law g touches m ->
  In t (pool m) ->
  about_to touches t = true ->
  holds g (residual t) = true /\
  sem (shared m) g = 0 /\
  inside_count g m = 1.
Proof.
  intros [[_ Hn] | (H0 & H1 & H2)] Hin Ha.
  - unfold nobody in Hn. rewrite forallb_forall in Hn.
    specialize (Hn t Hin). rewrite Ha in Hn. discriminate Hn.
  - pose proof (H2 t Hin Ha) as Hh.
    pose proof (holder_counts g m t Hin Hh).
    repeat split; [exact Hh | lia | lia].
Qed.

(** X1: the three locks that guard data are locks in every interleaving.
    Once [main] has started creating threads, whatever the schedule and
    whatever [rand] draws, the value of [reindeer_counter_lock], of
    [elf_counter_lock] and of [elf_mutex] is 0 or 1, and it is 1 minus the
    number of threads inside a section of that lock: at most one thread is
    inside, and the lock is free exactly when none is. *)
Theorem data_locks_are_exclusive (draws : nat -> Z) (sched : list nat)
    (m : Machine) (g : Gate) :
  run_schedule SleepGate.spawn sched (SleepGate.boot draws true) = Some m ->
  (1 < List.length (pool m))%nat ->
  data_guard g = true ->
  0 <= sem (shared m) g /\ sem (shared m) g + inside_count g m = 1.
Proof.
  intros Hrun Hlen Hg.
  assert (Hs : forall fn arg,
            thread_guarded g (fun _ => false) false (SleepGate.spawn fn arg)).
  { intros fn arg. destruct g; try discriminate Hg;
      destruct fn; split; guarding. }
  assert (Hm : guarded g (fun _ => false) false launch_and_exit).
  { destruct g; try discriminate Hg; guarding. }
  assert (Hl : forall m0, at_launch m0 -> sem (shared m0) g = 1).
  { intros m0 (_ & _ & _ & _ & _ & H1 & H2 & H3).
    destruct g; try discriminate Hg; assumption. }
  assert (He : early SleepGate.spawn (fun _ => true) 15
                 (SleepGate.boot draws true) = true)
    by (vm_compute; reflexivity).
  destruct (lock_law_from_boot g (fun _ => false) (fun _ => true)
              draws sched m (fun _ => eq_refl) (fun _ => eq_refl)
              (fun _ _ => eq_refl) (fun _ _ => eq_refl) Hs Hm Hl He Hrun)
    as [[H _] | (H0 & H1 & _)]; [lia | split; assumption].
Qed.

(** The theorem when elf 0 has taken [elf_mutex]. *)
Lemma data_locks_are_exclusive_witness :
  match
    run_schedule SleepGate.spawn elf_takes_the_line
      (SleepGate.boot (fun _ => 1) true)
  with
  | Some m =>
      0 <= sem (shared m) elf_mutex /\
      sem (shared m) elf_mutex + inside_count elf_mutex m = 1
  | None => False
  end.
Proof.
  pose proof (data_locks_are_exclusive (fun _ => 1) elf_takes_the_line) as T.
  assert (L : option_map (fun m => List.length (pool m))
                (run_schedule SleepGate.spawn elf_takes_the_line
                   (SleepGate.boot (fun _ => 1) true)) = Some 21%nat)
    by (vm_compute; reflexivity).
  destruct (option_cases
              (run_schedule SleepGate.spawn elf_takes_the_line
                 (SleepGate.boot (fun _ => 1) true))) as [E | [m E]];
    rewrite E in L |- *; cbn in L; [discriminate L |].
  injection L as L. apply (T m elf_mutex E); [lia | reflexivity].
Defined.

(** X2: [num_elves_being_helped] is only read and written under
    [elf_counter_lock].  In every state a schedule reaches from process
    start, a thread that is about to read or write the counter is inside a
    section of [elf_counter_lock], the lock is taken and no other thread is
    inside: Santa setting the counter and the elves decrementing and
    testing it never interleave. *)
Theorem help_counter_needs_its_lock (draws : nat -> Z) (sched : list nat)
    (m : Machine) (t : Thread) :
  run_schedule SleepGate.spawn sched (SleepGate.boot draws true) = Some m ->
  In t (pool m) ->
  about_to is_help_counter_access t = true ->
  holds elf_counter_lock (residual t) = true /\
  sem (shared m) elf_counter_lock = 0 /\
  inside_count elf_counter_lock m = 1.
Proof.
  intros Hrun. apply owner_is_inside.
  assert (Hs : forall fn arg,
            thread_guarded elf_counter_lock is_help_counter_access false
              (SleepGate.spawn fn arg))
    by (intros fn arg; destruct fn; split; guarding).
  assert (Hm : guarded elf_counter_lock is_help_counter_access false
                 launch_and_exit) by guarding.
  assert (He : early SleepGate.spawn (nobody is_help_counter_access) 15
                 (SleepGate.boot draws true) = true)
    by (vm_compute; reflexivity).
  refine (lock_law_from_boot elf_counter_lock is_help_counter_access
            (nobody is_help_counter_access) draws sched m
            (fun _ => eq_refl) (fun _ => eq_refl) (fun _ _ => eq_refl)
            (fun _ _ => eq_refl) Hs Hm _ He Hrun).
  intros m0 (_ & _ & _ & _ & _ & _ & H & _). exact H.
Qed.

(** The theorem when Santa is about to set the counter. *)
Lemma help_counter_needs_its_lock_witness :
  match
    run_schedule SleepGate.spawn santa_sets_the_counter
      (SleepGate.boot (fun _ => 1) true)
  with
  | Some m =>
      match nth_error (pool m) santa_tid with
      | Some t =>
          holds elf_counter_lock (residual t) = true /\
          sem (shared m) elf_counter_lock = 0 /\
          inside_count elf_counter_lock m = 1
      | None => False
      end
  | None => False
  end.
Proof.
  pose proof (help_counter_needs_its_lock (fun _ => 1)
                santa_sets_the_counter) as T.
  assert (L : option_map
                (fun m => option_map (about_to is_help_counter_access)
                            (nth_error (pool m) santa_tid))
                (run_schedule SleepGate.spawn santa_sets_the_counter
                   (SleepGate.boot (fun _ => 1) true))
              = Some (Some true))
    by (vm_compute; reflexivity).
  destruct (option_cases
              (run_schedule SleepGate.spawn santa_sets_the_counter
                 (SleepGate.boot (fun _ => 1) true))) as [E | [m E]];
    rewrite E in L |- *; unfold option_map in L; [discriminate L |].
  injection L as L. specialize (fun t => T m t E) as T'.
  unfold santa_tid. cbn [nth_error] in L |- *.
  destruct (pool m) as [| main [| t rest]]; try discriminate L.
  injection L as L.
  exact (T' t (or_intror (or_introl eq_refl)) L).
Defined.

(** X3: the waiting set is only changed under [elf_mutex].  In every state
    a schedule reaches from process start, a thread that is about to
    insert into the set or to take from it is inside a section of
    [elf_mutex], the lock is taken and no other thread is inside: an elf
    getting in line and Santa taking elves out never interleave. *)
Theorem waiting_set_needs_elf_mutex (draws : nat -> Z) (sched : list nat)
    (m : Machine) (t : Thread) :
  run_schedule SleepGate.spawn sched (SleepGate.boot draws true) = Some m ->
  In t (pool m) ->
  about_to is_set_update t = true ->
  holds elf_mutex (residual t) = true /\
  sem (shared m) elf_mutex = 0 /\
  inside_count elf_mutex m = 1.
Proof.
  intros Hrun. apply owner_is_inside.
  assert (Hs : forall fn arg,
            thread_guarded elf_mutex is_set_update false
              (SleepGate.spawn fn arg))
    by (intros fn arg; destruct fn; split; guarding).
  assert (Hm : guarded elf_mutex is_set_update false launch_and_exit)
    by guarding.
  assert (He : early SleepGate.spawn (nobody is_set_update) 15
                 (SleepGate.boot draws true) = true)
    by (vm_compute; reflexivity).
  refine (lock_law_from_boot elf_mutex is_set_update (nobody is_set_update)
            draws sched m
            (fun _ => eq_refl) (fun _ => eq_refl) (fun _ _ => eq_refl)
            (fun _ _ => eq_refl) Hs Hm _ He Hrun).
  intros m0 (_ & _ & _ & _ & _ & H & _). exact H.
Qed.

(** The theorem when elf 0 is about to insert itself. *)
Lemma waiting_set_needs_elf_mutex_witness :
  match
    run_schedule SleepGate.spawn elf_takes_the_line
      (SleepGate.boot (fun _ => 1) true)
  with
  | Some m =>
      match nth_error (pool m) (elf_tid 0) with
      | Some t =>
          holds elf_mutex (residual t) = true /\
          sem (shared m) elf_mutex = 0 /\
          inside_count elf_mutex m = 1
      | None => False
      end
  | None => False
  end.
Proof.
  pose proof (waiting_set_needs_elf_mutex (fun _ => 1) elf_takes_the_line)
    as T.
  assert (L : option_map
                (fun m => option_map (about_to is_set_update)
                            (nth_error (pool m) (elf_tid 0)))
                (run_schedule SleepGate.spawn elf_takes_the_line
                   (SleepGate.boot (fun _ => 1) true))
              = Some (Some true))
    by (vm_compute; reflexivity).
  destruct (option_cases
              (run_schedule SleepGate.spawn elf_takes_the_line
                 (SleepGate.boot (fun _ => 1) true))) as [E | [m E]];
    rewrite E in L |- *; unfold option_map in L; [discriminate L |].
  injection L as L. specialize (fun t => T m t E) as T'.
  unfold elf_tid. cbn [nth_error Nat.add] in L |- *.
  destruct (pool m) as [| main [| santa [| t rest]]]; try discriminate L.
  injection L as L.
  exact (T' t (or_intror (or_intror (or_introl eq_refl))) L).
Defined.

(** *** One Santa *)

Lemma errors_app (s : Shared) (l : Stream * string * option Z) :
  errors (set_console s (console s ++ [l]))
  = errors s ++ (match fst (fst l) with stderr => [l] | stdout => [] end).
Proof.
  unfold errors. cbn. rewrite filter_app. cbn.
  destruct (fst (fst l)); reflexivity.
Qed.

Lemma santas_app (s : Shared) (fn : ThreadFn) (arg : Z) :
  santas (set_created s (created s ++ [(fn, arg)]))
  = santas s + (match fn with fn_santa => 1 | _ => 0 end).
Proof.
  unfold santas. cbn. rewrite filter_app, length_app. cbn.
  destruct fn; cbn [List.length]; lia.
Qed.

(** What a quiet action leaves alone. *)
Lemma quiet_perform (e : Event) (s s' : Shared) (r : Z) :
  match e with
  | Store num_launched _ => False
  | PthreadCreate fn_santa _ => False
  | Fprintf stderr _ _ => False
  | Halt code => code = EXIT_SUCCESS
  | _ => True
  end ->
  perform e s = Returns s' r ->
  sound s ->
  sound s' /\
  var s' num_launched = var s num_launched /\
  santas s' = santas s.
Proof.
  intros Hq Hp [Hx He]. unfold sound.
  destruct e; cbn in Hp;
    try (injection Hp as <- <-; repeat split; assumption).
  - destruct (0 <? sem s g); [| discriminate].
    injection Hp as <- <-. repeat split; assumption.
  - destruct (elves_waiting s); [discriminate |].
    injection Hp as <- <-. repeat split; assumption.
  - injection Hp as <- <-. split; [split; assumption |].
    split; [| reflexivity].
    cbn. unfold upd_var. destruct x; try reflexivity; contradiction.
  - injection Hp as <- <-. split; [| split; reflexivity].
    split; [exact Hx |].
    rewrite errors_app, He. destruct f; [reflexivity | contradiction].
  - destruct (atexit_ok s); injection Hp as <- <-; repeat split; assumption.
  - injection Hp as <- <-. split; [split; assumption |].
    split; [reflexivity |].
    rewrite santas_app. destruct fn; [contradiction | lia | lia].
  - destruct (existsb _ _); [| discriminate]. injection Hp as <- <-.
    repeat split; assumption.
  - injection Hp as <- <-. subst code. split; [| split; reflexivity].
    split; [right; reflexivity | exact He].
Qed.

(** Unfold a program over all the answers of its actions. *)
Ltac quieting :=
  repeat (cbn;
    match goal with
    | |- forall _, _ => intro
    | |- _ /\ _ => split
    | |- True => exact I
    | |- _ = _ => reflexivity
    | |- context [if ?c then _ else _] => destruct c
    | |- context [Pos.to_nat ?p] =>
        let n := eval vm_compute in (Pos.to_nat p) in
        change (Pos.to_nat p) with n
    end).

Lemma spawn_quiet (fn : ThreadFn) (arg : Z) :
  fn <> fn_santa -> quiet_thread (SleepGate.spawn fn arg).
Proof.
  intro H. destruct fn; [contradiction | |]; split; quieting.
Qed.

Lemma santa_quiet : quiet SleepGate.santa.
Proof. quieting. Qed.

Lemma quiet_thread_step (t : Thread) (e : Event) (k : Z -> Prog unit)
    (s s' : Shared) (r : Z) :
  quiet_thread t ->
  residual t = Act e k ->
  perform e s = Returns s' r ->
  sound s ->
  quiet_thread (mkThread (k r) (loop_body t)) /\
  sound s' /\
  var s' num_launched = var s num_launched /\
  santas s' = santas s /\
  Forall quiet_thread (born SleepGate.spawn e).
Proof.
  intros [Hq Hl] Hr Hp Hs. rewrite Hr in Hq. cbn in Hq.
  destruct Hq as [He Hk].
  destruct (quiet_perform e s s' r He Hp Hs) as (Hs' & Hv & Hn).
  split; [split; [apply Hk | exact Hl] |].
  split; [exact Hs' |]. split; [exact Hv |]. split; [exact Hn |].
  destruct e; try constructor; [| constructor].
  apply spawn_quiet. intros ->. exact He.
Qed.

(** A step of the machine keeps the phases of [one_santa]. *)
Lemma step_keeps_one_santa (tid : nat) (m m' : Machine) :
  one_santa m ->
  step SleepGate.spawn tid m = Some m' ->
  one_santa m'.
Proof.
  intros [Hs Hphase] Hstep.
  destruct (step_cases _ _ _ _ Hstep) as (t & Ht & Hx & Hcase).
  assert (Hquiet :
            quiet_thread t ->
            (forall t', quiet_thread t' ->
               Forall quiet_thread (replace_nth tid t' (pool m))) ->
            sound (shared m') /\
            var (shared m') num_launched = var (shared m) num_launched /\
            santas (shared m') = santas (shared m) /\
            Forall quiet_thread (pool m')).
  { intros Hq Hrep.
    destruct Hcase as [(a & b & Hr & Hl & Hsh & Hp)
                      | (e & k & s' & r & Hr & Hp & Hpool & Hsh)].
    - rewrite Hsh, Hp. split; [exact Hs |]. split; [reflexivity |].
      split; [reflexivity |].
      apply Hrep. destruct Hq as [_ Hq]. rewrite Hl in Hq.
      split; [exact Hq | exact Hq].
    - destruct (quiet_thread_step t e k _ _ _ Hq Hr Hp Hs)
        as (Q1 & Q2 & Q3 & Q4 & Q5).
      rewrite Hpool.
      split; [| split; [| split]].
      + destruct Hsh as [-> | ->]; exact Q2.
      + destruct Hsh as [-> | ->]; exact Q3.
      + destruct Hsh as [-> | ->]; exact Q4.
      + apply Forall_app. split; [apply Hrep; exact Q1 | exact Q5]. }
  unfold one_santa.
  destruct Hphase as [(Hv & Hn & Hpool) | [(Hv & Hn & Hpool) | (Hv & Hn & Hall)]].
  - (* main is about to create Santa *)
    rewrite Hpool in Ht. destruct tid as [| tid]; [| destruct tid; discriminate].
    injection Ht as <-. cbn [residual loop_body] in Hcase.
    destruct Hcase as [(a & b & Hr & _) | (e & k & s' & r & Hr & Hp & Hp' & Hsh)];
      [discriminate Hr |].
    injection Hr as <- <-. cbn in Hp. injection Hp as <- <-.
    rewrite Hpool in Hp'. cbn in Hp'.
    assert (Hn' : santas (set_created (shared m)
                            (created (shared m) ++ [(fn_santa, 0)])) = 1)
      by (rewrite santas_app, Hn; reflexivity).
    split.
    + destruct Hsh as [-> | ->]; exact Hs.
    + right. left. split; [destruct Hsh as [-> | ->]; exact Hv |].
      split; [destruct Hsh as [-> | ->]; exact Hn' |].
      eexists _, _, _. split; [exact Hp' |]. split; [| split].
      * split; [quieting | exact I].
      * split; [reflexivity | left; reflexivity].
      * constructor.
  - (* Santa is entering *)
    destruct Hpool as (main & santa & rest & Hpool & Hmain & [Hl He] & Hrest).
    rewrite Hpool in Ht, Hquiet, Hcase.
    destruct tid as [| [| tid]]; cbn [nth_error] in Ht.
    + (* main moves *)
      injection Ht as <-.
      destruct Hcase as [(a & b & Hr & Hb & Hsh & Hp)
                        | (e & k & s' & r & Hr & Hp & Hp' & Hsh)].
      * rewrite Hsh. split; [exact Hs |]. right. left. split; [exact Hv |].
        split; [exact Hn |].
        eexists _, _, _. split; [exact Hp |].
        destruct Hmain as [_ Hq]. rewrite Hb in Hq.
        repeat split; assumption.
      * destruct (quiet_thread_step main e k _ _ _ Hmain Hr Hp Hs)
          as (Q1 & Q2 & Q3 & Q4 & Q5).
        split; [destruct Hsh as [-> | ->]; exact Q2 |].
        right. left.
        split; [destruct Hsh as [-> | ->]; exact (eq_trans Q3 Hv) |].
        split; [destruct Hsh as [-> | ->]; exact (eq_trans Q4 Hn) |].
        eexists _, _, _. split; [exact Hp' |].
        split; [exact Q1 |]. split; [split; assumption |].
        apply Forall_app. split; assumption.
    + (* Santa moves *)
      injection Ht as <-.
      destruct Hcase as [(a & b & Hr & Hb & Hsh & Hp)
                        | (e & k & s' & r & Hr & Hp & Hp' & Hsh)].
      * destruct He as [He | He]; rewrite He in Hr; discriminate Hr.
      * destruct He as [He | He]; rewrite He in Hr.
        -- injection Hr as <- <-. cbn in Hp. injection Hp as <- <-.
           rewrite Hv in Hp'. cbn in Hp'. rewrite app_nil_r in Hp'.
           split; [destruct Hsh as [-> | ->]; exact Hs |].
           right. left. split; [destruct Hsh as [-> | ->]; exact Hv |].
           split; [destruct Hsh as [-> | ->]; exact Hn |].
           eexists _, _, _. split; [exact Hp' |].
           split; [exact Hmain |]. split; [| exact Hrest].
           split; [exact Hl | right; reflexivity].
        -- injection Hr as <- <-. cbn in Hp. injection Hp as <- <-.
           cbn in Hp'. rewrite app_nil_r in Hp'.
           assert (Hs' : sound (set_var (shared m)
                            (upd_var (var (shared m)) num_launched
                               (int (0 + 1))))) by exact Hs.
           split; [destruct Hsh as [-> | ->]; exact Hs' |].
           right. right.
           split; [destruct Hsh as [-> | ->]; vm_compute; reflexivity |].
           split; [destruct Hsh as [-> | ->]; exact Hn |].
           rewrite Hp'. constructor; [exact Hmain |].
           constructor; [| exact Hrest].
           split; [vm_compute; exact I |].
           cbn [loop_body]. rewrite Hl. exact santa_quiet.
    + (* an elf or a reindeer moves *)
      assert (Hq : quiet_thread t)
        by exact (Forall_nth_error _ _ _ _ Hrest Ht).
      destruct Hcase as [(a & b & Hr & Hb & Hsh & Hp)
                        | (e & k & s' & r & Hr & Hp & Hp' & Hsh)].
      * rewrite Hsh. split; [exact Hs |]. right. left. split; [exact Hv |].
        split; [exact Hn |].
        eexists _, _, _. split; [exact Hp |].
        split; [exact Hmain |]. split; [split; assumption |].
        apply Forall_replace_nth; [exact Hrest |].
        destruct Hq as [_ Hq]. rewrite Hb in Hq. split; assumption.
      * destruct (quiet_thread_step t e k _ _ _ Hq Hr Hp Hs)
          as (Q1 & Q2 & Q3 & Q4 & Q5).
        split; [destruct Hsh as [-> | ->]; exact Q2 |].
        right. left.
        split; [destruct Hsh as [-> | ->]; exact (eq_trans Q3 Hv) |].
        split; [destruct Hsh as [-> | ->]; exact (eq_trans Q4 Hn) |].
        eexists _, _, _. split; [exact Hp' |].
        split; [exact Hmain |]. split; [split; assumption |].
        apply Forall_app. split; [| exact Q5].
        apply Forall_replace_nth; assumption.
  - destruct Hquiet as (Q1 & Q2 & Q3 & Q4).
    + exact (Forall_nth_error _ _ _ _ Hall Ht).
    + intros t' Ht'. apply Forall_replace_nth; assumption.
    + split; [exact Q1 |]. right. right.
      split; [lia |]. split; [lia | exact Q4].
Qed.

(** X4: with [atexit] succeeding, no interleaving makes the process fail.
    In every state a schedule reaches from process start, whatever [rand]
    draws, nothing was written on [stderr], the process runs or has exited
    with [EXIT_SUCCESS], [santa] was passed to [pthread_create] at most
    once and [num_launched] is 0 or 1: the assertion
    [1 == ++num_launched] of [santa] never fails. *)
Theorem no_schedule_fails (draws : nat -> Z) (sched : list nat)
    (m : Machine) :
  run_schedule SleepGate.spawn sched (SleepGate.boot draws true) = Some m ->
  (exit_status (shared m) = None \/
   exit_status (shared m) = Some EXIT_SUCCESS) /\
  errors (shared m) = [] /\
  (santas (shared m) = 0 \/ santas (shared m) = 1) /\
  (var (shared m) num_launched = 0 \/ var (shared m) num_launched = 1) /\
  var (shared m) num_launched <= santas (shared m).
Proof.
  intro Hrun.
  assert (He : early SleepGate.spawn untouched 15
                 (SleepGate.boot draws true) = true)
    by (vm_compute; reflexivity).
  destruct (from_boot draws untouched one_santa He) with (sched := sched)
    (m := m) as [[_ H] | [[Hx Hq] H]]; [| | exact Hrun | |].
  - intros m0 (Hp & Hx & Hq & Hn & Hv & _).
    split; [split; [left; exact Hx | exact Hq] |].
    left. repeat split; assumption.
  - exact step_keeps_one_santa.
  - unfold untouched in H.
    apply andb_true_iff in H. destruct H as [H Hv].
    apply andb_true_iff in H. destruct H as [H Hn].
    apply andb_true_iff in H. destruct H as [Hx Hq].
    apply Z.eqb_eq in Hv, Hn. rewrite Hv, Hn.
    destruct (exit_status (shared m)); [discriminate Hx |].
    destruct (errors (shared m)); [| discriminate Hq].
    repeat split; auto; lia.
  - split; [exact Hx |]. split; [exact Hq |].
    destruct H as [(Hv & Hn & _) | [(Hv & Hn & _) | (Hv & Hn & _)]];
      rewrite Hv, Hn; repeat split; auto; lia.
Qed.

(** The theorem when Santa has counted itself and serves three elves. *)
Lemma no_schedule_fails_witness :
  match
    run_schedule SleepGate.spawn santa_sets_the_counter
      (SleepGate.boot (fun _ => 1) true)
  with
  | Some m =>
      errors (shared m) = [] /\
      santas (shared m) = 1 /\
      var (shared m) num_launched = 1
  | None => False
  end.
Proof.
  pose proof (no_schedule_fails (fun _ => 1) santa_sets_the_counter) as T.
  assert (L : option_map
                (fun m => (santas (shared m), var (shared m) num_launched))
                (run_schedule SleepGate.spawn santa_sets_the_counter
                   (SleepGate.boot (fun _ => 1) true))
              = Some (1, 1))
    by (vm_compute; reflexivity).
  destruct (option_cases
              (run_schedule SleepGate.spawn santa_sets_the_counter
                 (SleepGate.boot (fun _ => 1) true))) as [E | [m E]];
    rewrite E in L |- *; unfold option_map in L; [discriminate L |].
  injection L as L1 L2.
  destruct (T m E) as (_ & Hq & _).
  repeat split; assumption.
Defined.

(** ** A service window *)

(** Side conditions on the semaphores of the elves: compare the
    identifiers, then conclude. *)
Ltac slots :=
  cbn; unfold upd_gate;
  repeat match goal with
  | H : forall id, _ (slot elf_line_set id) = 0 |- _ => rewrite !H
  end;
  repeat (match goal with
          | |- context [Gate_eq_dec ?x ?y] => destruct (Gate_eq_dec x y)
          end; try congruence);
  first [assumption | reflexivity | lia].

#[local] Arguments Gate_eq_dec !a !b : simpl nomatch.

Ltac side ::= slots.

(** X13: a service window is a round trip.  From the protocol at rest,
    three elves get in line, Santa takes [santa_busy_mutex], sets the
    service counter and wakes them, and each gets his help; the last one
    gives Santa and the three admissions back.  Santa has taken three
    elves and the semaphore of each of the three was signalled once, and
    the protocol is at rest again: every semaphore has the value it had,
    the set is empty and the service counter is 0. *)
Theorem service_window_restores_idle (a b c : Z) (s : Shared) :
  idle s ->
  NoDup [a; b; c] ->
  let o := run (service_window a b c) s in
  status o = Finished tt /\
  idle (final o) /\
  var (final o) num_elves_being_helped = 0 /\
  count is_take (trace o) = NUM_ELVES_PER_GROUP /\
  (forall id, In id [a; b; c] ->
     count (is_signal_of (slot elf_line_set id)) (trace o) = 1) /\
  count (is_signal_of santa_busy_mutex) (trace o) = 2 /\
  count (is_signal_of elf_counting_sem) (trace o) = NUM_ELVES_PER_GROUP.
Proof.
  intros (Hx & Hb & Hs & Hc & Hm & Hl & Hslot & Hw & Hr) Hnd o. subst o.
  assert (Hab : a <> b /\ a <> c /\ b <> c).
  { inversion Hnd as [| ? ? H1 H2]; subst. inversion H2 as [| ? ? H3 H4]; subst.
    cbn in H1, H3. repeat split; intro; subst; tauto. }
  destruct Hab as (Hab & Hac & Hbc).
  destruct s as [sem0 var0 ew con rs rc ok reg sig acq rel cre ter ex].
  cbn in Hx, Hb, Hs, Hc, Hm, Hl, Hslot, Hw, Hr. subst ew ex.
  name_run o Ho. steps Ho.
  assert (E : (NUM_REINDEER <=? var0 num_reindeer_waiting) = false)
    by (apply Z.leb_gt; exact Hr).
  rewrite E in Ho. steps Ho. subst o. cbn [final status trace].
  split; [reflexivity |]. split; [| split; [| split; [| split; [| split]]]].
  - unfold idle. cbn [exit_status sem elves_waiting var].
    split; [reflexivity |].
    split; [slots |]. split; [slots |]. split; [slots |].
    split; [slots |]. split; [slots |].
    split; [intro id; slots |]. split; [reflexivity |].
    cbn. exact Hr.
  - vm_compute. reflexivity.
  - reflexivity.
  - intros id Hin. cbn [In] in Hin.
    destruct Hin as [<- | [<- | [<- | []]]];
      unfold count, is_signal_of; cbn [filter fst];
      repeat (match goal with
              | |- context [Gate_eq_dec ?x ?y] =>
                  destruct (Gate_eq_dec x y); try congruence;
                  cbn [filter fst]
              end);
      reflexivity.
  - vm_compute. reflexivity.
  - vm_compute. reflexivity.
Qed.

(** X14: [main] leaves the protocol at rest, whatever [rand] will draw:
    when it has created the threads and waits for them, every lock is
    free, Santa's trigger and the semaphore of every elf are locked and the
    admission gate has [NUM_ELVES_PER_GROUP] credits. *)
Theorem main_sets_up_idle (draws : nat -> Z) :
  idle (final (run SleepGate.main (fresh draws true))).
Proof.
  unfold idle.
  split; [reflexivity |].
  do 5 (split; [vm_compute; reflexivity |]).
  split; [intro id; vm_compute; reflexivity |].
  split; vm_compute; reflexivity.
Qed.

(** The theorem for elves 0, 1 and 2 in the state [main] has set up. *)
Lemma service_window_restores_idle_witness :
  idle (final (run (service_window 0 1 2) started)).
Proof.
  apply (service_window_restores_idle 0 1 2 started).
  - unfold idle.
    split; [reflexivity |].
    do 5 (split; [vm_compute; reflexivity |]).
    split; [intro id; vm_compute; reflexivity |].
    split; vm_compute; reflexivity.
  - repeat constructor; cbn; intuition discriminate.
Defined.
